(** * utapi-go: a shallow embedding of the UploadThing client

    The Go package [utapi] (src/main.go) is a thin client for the
    UploadThing HTTP API.  Every function of the package is transcribed
    below as a computation over an explicit [World]: the process
    environment, the file system, the Go heap holding the client objects,
    the requests handed to the HTTP transport and the open file handles.

    What the package calls but does not define (net/http, encoding/json,
    godotenv, mime/multipart, the Go runtime) is gathered in the record
    [Platform]; every definition and theorem is stated for an arbitrary
    platform. *)

From Stdlib Require Import ZArith String Ascii List DecimalString.
From stdpp Require Import base gmap strings list fin_maps.

Set Warnings "-register-all".
Local Open Scope Z_scope.

(** ** Go values *)

(** Heap addresses and Go pointers; [nil] is the nil pointer. *)
Definition loc := positive.

Inductive ptr : Type :=
| nil
| addr (l : loc).

(** A Go slice is either the nil slice ([None]) or holds elements; the two
    differ once marshalled ([null] against [[]]). *)
Definition slice (A : Type) : Type := option (list A).

(** Go [error] values: the ones created by a library, which the package
    only passes on, and the ones it builds itself with [fmt.Errorf]. *)
Inductive error : Type :=
| LibError (pkg msg : string)
| Errorf (msg : string).

(** A library call of Go's [(T, error)] shape. *)
Inductive result (A : Type) : Type :=
| Ok (a : A)
| Err (e : error).
Arguments Ok {A} a.
Arguments Err {A} e.

(** An [io.Reader] whose [Read] returns: the bytes it will still deliver,
    then either the error it fails with or, with [None], a clean end of
    stream.  A reader whose [Read] panics (a nil pointer inside a non-nil
    interface value) is not of this type: what is proved of a function taking
    a [Reader] is proved for the readers that return. *)
Record Reader := {
  available : string;
  failure : option error
}.

Definition io_EOF : error := LibError "io" "EOF".

(** [io.ReadAll]: everything the reader delivers, and the error that
    stopped it, if any (a clean end of stream is not an error). *)
Definition io_ReadAll (r : Reader) : string * option error :=
  (available r, failure r).

(** [io.CopyN(dst, src, n)]: the bytes written to [dst] and the error.
    With [n] bytes delivered the copy succeeds; a source that ends early
    reports its own error, or [io.EOF] when it ended cleanly. *)
Definition io_CopyN (src : Reader) (n : Z) : string * option error :=
  let k := Z.to_nat n in
  if (k <=? String.length (available src))%nat
  then (substring 0 k (available src), None)
  else (available src, Some (default io_EOF (failure src))).

(** [%d] of [fmt]. *)
Definition itoa (z : Z) : string := NilZero.string_of_int (Z.to_int z).

(** ** JSON documents *)

Inductive json : Type :=
| JNull
| JBool (b : bool)
| JNumber (n : Z)
| JString (s : string)
| JArray (elems : list json)
| JObject (members : list (string * json)).

Fixpoint join (sep : string) (l : list string) : string :=
  match l with
  | [] => ""
  | [x] => x
  | x :: rest => x +:+ sep +:+ join sep rest
  end.

(** ** The structures of the package *)

Record uploadthingConfig := {
  Host : string;
  ApiKey : string;
  Version : string
}.

(** [http.Client{}]: the package only ever builds the zero value. *)
Inductive http_Client : Type := http_Client_zero.

Record UtApi := {
  config : ptr;      (* *uploadthingConfig *)
  httpClient : ptr;  (* *http.Client *)
  fePackage : string;
  beAdapter : string
}.

Record DeleteFilesRequest := { FileKeys : slice string }.
Record DeleteFilesResponse := {
  DeleteFiles_Success : bool;
  DeletedCount : Z
}.

Record ListFilesRequest := { Limit : Z; Offset : Z }.
Record ListFilesFile := {
  ListFilesFile_Id : string;
  ListFilesFile_CustomId : option string;
  ListFilesFile_Key : string;
  ListFilesFile_Name : string;
  ListFilesFile_Status : string;
  ListFilesFile_Size : Z;
  UploadedAt : Z
}.
Record ListFilesResponse := {
  HasMore : bool;
  ListFiles_Files : slice ListFilesFile
}.

Record RenameFileUpdate := { FileKey : string; NewName : string }.
Record RenameFilesRequest := { Updates : slice RenameFileUpdate }.
Record RenameFilesResponse := {
  RenameFiles_Success : bool;
  RenamedCount : Z
}.

Record UsageInfoResponse := {
  TotalBytes : Z;
  AppTotalBytes : Z;
  FilesUploaded : Z;
  LimitBytes : Z
}.

Record RequestFileAccessRequest := {
  RequestFileAccess_FileKey : string;
  ExpiresIn : Z
}.
Record RequestFileAccessResponse := {
  UfsUrl : string;
  RequestFileAccess_Url : string  (* deprecated *)
}.

Record GetAppInfoResponse := {
  AppId : string;
  DefaultACL : string;
  AllowACLOverride : bool
}.

Record UploadFileInfo := {
  Name : string;
  Size : Z;
  Type_ : string;
  CustomId : option string
}.
(** [Metadata] is an [interface{}]; [None] is the nil interface, the only
    value the package stores there. *)
Record UploadFilesRequest := {
  Files : slice UploadFileInfo;
  ACL : string;
  Metadata : option json;
  ContentDisposition : string
}.
Record PresignedPostURLs := {
  Key : string;
  FileName : string;
  FileType : string;
  FileUrl : string;
  Presigned_ContentDisposition : string;
  PollingJwt : string;
  PollingUrl : string;
  Presigned_CustomId : option string;
  Url : string;
  Fields : gmap string string
}.
Record UploadFilesResponse := { Data : slice PresignedPostURLs }.

(** ** HTTP messages *)

(** What [mime/multipart] has written so far: the parts in order, and
    whether the closing boundary is there. *)
Inductive Part : Type :=
| FormField (fieldname value : string)
| FormFile (fieldname filename data : string).

Record MultipartForm := {
  boundary : string;
  parts : list Part;
  closed : bool
}.

(** A [bytes.Buffer]: raw bytes, or the bytes of a multipart form. *)
Inductive Buffer : Type :=
| RawBytes (data : string)
| FormBytes (form : MultipartForm).

Definition bytes_NewBuffer (data : string) : Buffer := RawBytes data.

(** Header names are the ones the source passes to [Header.Set]; net/http
    canonicalises their case on both [Set] and [Get], which keeps the names
    used here apart.  A header is therefore looked up under the spelling the
    source writes it with, and a map is meant to hold one spelling of a
    name: [Header_Set] does not look for the entries net/http would find
    under another case. *)
Record Request := {
  Method : string;
  URL : string;
  Header : gmap string string;
  ReqBody : Buffer
}.

Record Response := {
  StatusCode : Z;
  Body : Reader
}.

Definition http_MethodPost : string := "POST".

Definition Header_Set (key value : string) (req : Request) : Request :=
  {| Method := Method req; URL := URL req;
     Header := <[key := value]> (Header req); ReqBody := ReqBody req |}.

(** ** The platform *)

(** Everything the package relies on without defining it. *)
Record Platform := {
  (** encoding/json: the text of a JSON string literal *)
  json_quote : string → string;
  (** encoding/json: [json.NewDecoder(body).Decode(&result)], per result type *)
  Decode_DeleteFilesResponse : Reader → result DeleteFilesResponse;
  Decode_ListFilesResponse : Reader → result ListFilesResponse;
  Decode_RenameFilesResponse : Reader → result RenameFilesResponse;
  Decode_UsageInfoResponse : Reader → result UsageInfoResponse;
  Decode_RequestFileAccessResponse : Reader → result RequestFileAccessResponse;
  Decode_GetAppInfoResponse : Reader → result GetAppInfoResponse;
  Decode_UploadFilesResponse : Reader → result UploadFilesResponse;
  (** net/url: the error [url.Parse] reports for a URL, if any *)
  url_Parse : string → option error;
  (** net/http and the provider behind it: what one call of [Do] returns
      for a request, given the requests handed to [Do] before *)
  RoundTrip : list Request → Request → result Response;
  (** net/http: the HTTP requests that call of [Do] puts on the wire: none
      when it fails before anything is sent, else the request itself and
      one more for every redirect the client follows (the zero-value
      [http.Client] the package builds follows up to ten) *)
  Issued : list Request → Request → list Request;
  (** godotenv: the variables a [.env] text defines *)
  godotenv_Parse : string → result (gmap string string);
  (** Go runtime: the order in which [range] visits a map *)
  map_range : gmap string string → list (string * string);
  map_range_perm : ∀ m, map_range m ≡ₚ map_to_list m;
  (** mime/multipart: the random boundary of a new writer *)
  randomBoundary : string;
  (** os: faults of [Stat] and of reading, per path; a read fault gives
      the number of bytes delivered before it *)
  os_Stat_fault : string → option error;
  os_Read_fault : string → option (nat * error)
}.

(** ** The world *)

Record File := { fd : positive; path : string }.

Record World := {
  environ : gmap string string;       (* process environment *)
  files : gmap string string;         (* file system: path to content *)
  stdout : list string;
  configs : gmap loc uploadthingConfig;
  httpClients : gmap loc http_Client;
  clients : gmap loc UtApi;
  sent : list Request;                (* one entry per [Client.Do], oldest first *)
  open_files : gmap positive string;  (* open descriptors and their path *)
  open_bodies : nat                   (* response bodies not yet closed *)
}.

Inductive outcome (A : Type) : Type :=
| Return (a : A) (w : World)
| Panic (msg : string) (w : World).
Arguments Return {A} a w.
Arguments Panic {A} msg w.

Definition final_world {A} (o : outcome A) : World :=
  match o with
  | Return _ w => w
  | Panic _ w => w
  end.

Definition returned {A} (o : outcome A) : option A :=
  match o with
  | Return a _ => Some a
  | Panic _ _ => None
  end.

(** Computations of the package: they read and change the world, and
    either return or panic. *)
Definition M (A : Type) : Type := World → outcome A.

Global Instance M_ret : MRet M := λ A a w, Return a w.
Global Instance M_bind : MBind M := λ A B f m w,
  match m w with
  | Return a w' => f a w'
  | Panic msg w' => Panic msg w'
  end.

Definition panic {A} (msg : string) : M A := λ w, Panic msg w.

(** [defer cleanup] followed by the rest of the function: the cleanup runs
    when the rest returns, and when it panics. *)
Definition defer {A} (cleanup : M unit) (rest : M A) : M A := λ w,
  match rest w with
  | Return a w' =>
      match cleanup w' with
      | Return _ w'' => Return a w''
      | Panic msg w'' => Panic msg w''
      end
  | Panic msg w' => Panic msg (final_world (cleanup w'))
  end.

(** Field updates of the world. *)
Definition set_environ (e : gmap string string) (w : World) : World :=
  {| environ := e; files := files w; stdout := stdout w;
     configs := configs w; httpClients := httpClients w; clients := clients w;
     sent := sent w; open_files := open_files w; open_bodies := open_bodies w |}.

Definition set_files (fs : gmap string string) (w : World) : World :=
  {| environ := environ w; files := fs; stdout := stdout w;
     configs := configs w; httpClients := httpClients w; clients := clients w;
     sent := sent w; open_files := open_files w; open_bodies := open_bodies w |}.

Definition set_stdout (o : list string) (w : World) : World :=
  {| environ := environ w; files := files w; stdout := o;
     configs := configs w; httpClients := httpClients w; clients := clients w;
     sent := sent w; open_files := open_files w; open_bodies := open_bodies w |}.

Definition set_configs (h : gmap loc uploadthingConfig) (w : World) : World :=
  {| environ := environ w; files := files w; stdout := stdout w;
     configs := h; httpClients := httpClients w; clients := clients w;
     sent := sent w; open_files := open_files w; open_bodies := open_bodies w |}.

Definition set_httpClients (h : gmap loc http_Client) (w : World) : World :=
  {| environ := environ w; files := files w; stdout := stdout w;
     configs := configs w; httpClients := h; clients := clients w;
     sent := sent w; open_files := open_files w; open_bodies := open_bodies w |}.

Definition set_clients (h : gmap loc UtApi) (w : World) : World :=
  {| environ := environ w; files := files w; stdout := stdout w;
     configs := configs w; httpClients := httpClients w; clients := h;
     sent := sent w; open_files := open_files w; open_bodies := open_bodies w |}.

Definition set_sent (l : list Request) (w : World) : World :=
  {| environ := environ w; files := files w; stdout := stdout w;
     configs := configs w; httpClients := httpClients w; clients := clients w;
     sent := l; open_files := open_files w; open_bodies := open_bodies w |}.

Definition set_open_files (o : gmap positive string) (w : World) : World :=
  {| environ := environ w; files := files w; stdout := stdout w;
     configs := configs w; httpClients := httpClients w; clients := clients w;
     sent := sent w; open_files := o; open_bodies := open_bodies w |}.

Definition set_open_bodies (n : nat) (w : World) : World :=
  {| environ := environ w; files := files w; stdout := stdout w;
     configs := configs w; httpClients := httpClients w; clients := clients w;
     sent := sent w; open_files := open_files w; open_bodies := n |}.

(** ** The Go heap *)

Definition nil_dereference : string :=
  "invalid memory address or nil pointer dereference".

Definition lookup_ptr {A} (heap : gmap loc A) (p : ptr) : option A :=
  match p with
  | nil => None
  | addr l => heap !! l
  end.

Definition deref {A} (heap : World → gmap loc A) (p : ptr) : M A := λ w,
  match lookup_ptr (heap w) p with
  | Some a => Return a w
  | None => Panic nil_dereference w
  end.

(** [&uploadthingConfig{...}], [&http.Client{}] and [&UtApi{...}]: a fresh
    address holding the value. *)
Definition new_config (c : uploadthingConfig) : M ptr := λ w,
  let l := fresh (dom (configs w)) in
  Return (addr l) (set_configs (<[l := c]> (configs w)) w).

Definition new_http_Client (c : http_Client) : M ptr := λ w,
  let l := fresh (dom (httpClients w)) in
  Return (addr l) (set_httpClients (<[l := c]> (httpClients w)) w).

Definition new_UtApi (u : UtApi) : M ptr := λ w,
  let l := fresh (dom (clients w)) in
  Return (addr l) (set_clients (<[l := u]> (clients w)) w).

(** ** encoding/json on the request structures *)

(** The JSON document [json.Marshal] builds for a value, read off the
    struct tags of the source. *)
Class Marshaler (A : Type) := to_json : A → json.

(** A nil slice is marshalled as [null]. *)
Definition json_slice {A} (f : A → json) (s : slice A) : json :=
  match s with
  | None => JNull
  | Some l => JArray (map f l)
  end.

(** A member tagged [omitempty]. *)
Definition omitempty (empty : bool) (key : string) (v : json) : list (string * json) :=
  if empty then [] else [(key, v)].

Global Instance DeleteFilesRequest_json : Marshaler DeleteFilesRequest := λ r,
  JObject [("fileKeys", json_slice JString (FileKeys r))].

Global Instance ListFilesRequest_json : Marshaler ListFilesRequest := λ r,
  JObject [("limit", JNumber (Limit r)); ("offset", JNumber (Offset r))].

Global Instance RenameFileUpdate_json : Marshaler RenameFileUpdate := λ u,
  JObject [("fileKey", JString (FileKey u)); ("newName", JString (NewName u))].

Global Instance RenameFilesRequest_json : Marshaler RenameFilesRequest := λ r,
  JObject [("updates", json_slice to_json (Updates r))].

Global Instance RequestFileAccessRequest_json : Marshaler RequestFileAccessRequest := λ r,
  JObject ([("fileKey", JString (RequestFileAccess_FileKey r))]
           ++ omitempty (ExpiresIn r =? 0) "expiresIn" (JNumber (ExpiresIn r))).

Global Instance UploadFileInfo_json : Marshaler UploadFileInfo := λ f,
  JObject ([("name", JString (Name f)); ("size", JNumber (Size f));
            ("type", JString (Type_ f))]
           ++ match CustomId f with
              | None => []
              | Some s => [("customId", JString s)]
              end).

Global Instance UploadFilesRequest_json : Marshaler UploadFilesRequest := λ r,
  JObject ([("files", json_slice to_json (Files r)); ("acl", JString (ACL r))]
           ++ match Metadata r with
              | None => []
              | Some j => [("metadata", j)]
              end
           ++ omitempty (bool_decide (ContentDisposition r = ""))
                "contentDisposition" (JString (ContentDisposition r))).

Definition newline : string := String "010"%char EmptyString.

Section Package.

Context (P : Platform).

(** The compact text [json.Marshal] emits for a document. *)
Fixpoint compact (j : json) : string :=
  match j with
  | JNull => "null"
  | JBool b => if b then "true" else "false"
  | JNumber n => itoa n
  | JString s => json_quote P s
  | JArray elems => "[" +:+ join "," (map compact elems) +:+ "]"
  | JObject members =>
      "{" +:+ join "," (map (λ kv, json_quote P (fst kv) +:+ ":" +:+ compact (snd kv))
                            members) +:+ "}"
  end.

(** [json.Marshal]: none of the request structures holds a value it
    rejects (channels, functions, cycles, non-finite floats), so it always
    yields the text of the document. *)
Definition json_Marshal {A} `{Marshaler A} (v : A) : result string :=
  Ok (compact (to_json v)).

(** ** os, fmt and godotenv *)

(** [os.Getenv]: the empty string for a variable that is not set. *)
Definition os_Getenv (key : string) : M string := λ w,
  Return (default "" (environ w !! key)) w.

Definition fmt_Printf (text : string) : M unit := λ w,
  Return tt (set_stdout (stdout w ++ [text]) w).

Definition no_such_file (op name : string) : error :=
  LibError "os" (op +:+ " " +:+ name +:+ ": no such file or directory").

(** [godotenv.Load]: reads and parses the file, then sets the variables it
    defines that the environment does not have yet. *)
Definition godotenv_Load (filename : string) : M (option error) := λ w,
  match files w !! filename with
  | None => Return (Some (no_such_file "open" filename)) w
  | Some text =>
      match godotenv_Parse P text with
      | Err e => Return (Some e) w
      | Ok envMap => Return None (set_environ (environ w ∪ envMap) w)
      end
  end.

(** [os.Open]: a fresh descriptor on an existing file. *)
Definition os_Open (name : string) : M (result File) := λ w,
  match files w !! name with
  | None => Return (Err (no_such_file "open" name)) w
  | Some _ =>
      let d := fresh (dom (open_files w)) in
      Return (Ok {| fd := d; path := name |})
             (set_open_files (<[d := name]> (open_files w)) w)
  end.

Definition File_Close (f : File) : M unit := λ w,
  Return tt (set_open_files (delete (fd f) (open_files w)) w).

Record FileInfo := { FileInfo_Size : Z }.

Definition File_Stat (f : File) : M (result FileInfo) := λ w,
  match os_Stat_fault P (path f) with
  | Some e => Return (Err e) w
  | None =>
      match files w !! path f with
      | Some text => Return (Ok {| FileInfo_Size := Z.of_nat (String.length text) |}) w
      | None => Return (Err (no_such_file "stat" (path f))) w
      end
  end.

(** An open file used as an [io.Reader]. *)
Definition File_Reader (f : File) : M Reader := λ w,
  let text := default "" (files w !! path f) in
  Return match os_Read_fault P (path f) with
         | Some (n, e) => {| available := substring 0 n text; failure := Some e |}
         | None => {| available := text; failure := None |}
         end w.

(** ** net/http *)

(** [http.NewRequest]: fails on a URL that does not parse ([POST] is a
    valid method), and reads the length of the buffer it is given. *)
Definition http_NewRequest (method url : string) (body : option Buffer)
  : M (result Request) := λ w,
  match url_Parse P url with
  | Some e => Return (Err e) w
  | None =>
      match body with
      | None => Panic nil_dereference w
      | Some b =>
          Return (Ok {| Method := method; URL := url; Header := ∅; ReqBody := b |}) w
      end
  end.

(** [Do] of an [http.Client]: hands the request to the transport. *)
Definition http_send (req : Request) : M (result Response) := λ w,
  let w' := set_sent (sent w ++ [req]) w in
  match RoundTrip P (sent w) req with
  | Ok resp => Return (Ok resp) (set_open_bodies (S (open_bodies w')) w')
  | Err e => Return (Err e) w'
  end.

Definition http_Client_Do (c : ptr) (req : Request) : M (result Response) :=
  _ ← deref httpClients c;
  http_send req.

Definition Body_Close (resp : Response) : M unit := λ w,
  Return tt (set_open_bodies (pred (open_bodies w)) w).

(** [resp.Body] on the [*http.Response] a call handed back. *)
Definition deref_Response (resp : option Response) : M Response :=
  match resp with
  | Some r => mret r
  | None => panic nil_dereference
  end.

(** ** The package: configuration (src/main.go, lines 36-87) *)

Definition setEnvironmentVariablesFromFile : M (option error) :=
  godotenv_Load ".env".

Definition handleSetEnvironmentVariables : M (option error) :=
  err ← setEnvironmentVariablesFromFile;
  match err with
  | Some e =>
      _ ← fmt_Printf ("Failed to load environment variables from .env file" +:+ newline);
      mret (Some e)
  | None => mret None
  end.

Fixpoint validate_keys (keys : list string) : M (option error) :=
  match keys with
  | [] => mret None
  | key :: rest =>
      v ← os_Getenv key;
      if bool_decide (v = "")
      then mret (Some (Errorf (key +:+ " is not set")))
      else validate_keys rest
  end.

Definition validateEnvironmentVariables (keys : slice string) : M (option error) :=
  validate_keys (default [] keys).

Definition getUploadthingConfig : M (ptr * option error) :=
  err ← handleSetEnvironmentVariables;
  match err with
  | Some e => mret (nil, Some e)
  | None =>
      err ← validateEnvironmentVariables (Some ["UPLOADTHING_SECRET"]);
      match err with
      | Some e => mret (nil, Some e)
      | None =>
          key ← os_Getenv "UPLOADTHING_SECRET";
          c ← new_config {| Host := "https://api.uploadthing.com";
                            ApiKey := key;
                            Version := "7.6.0" |};
          mret (c, None)
      end
  end.

Definition NewUtApi : M (ptr * option error) :=
  '(config, err) ← getUploadthingConfig;
  match err with
  | Some e => mret (nil, Some e)
  | None =>
      hc ← new_http_Client http_Client_zero;
      ut ← new_UtApi {| config := config;
                        httpClient := hc;
                        fePackage := "";
                        beAdapter := "github.com/IXackerr/utapi-go" |};
      mret (ut, None)
  end.

(** ** The package: requests (lines 89-119) *)

Definition setHeaders (ut : ptr) (req : Request) : M Request :=
  let req := Header_Set "Content-Type" "application/json" req in
  u ← deref clients ut;
  c ← deref configs (config u);
  let req := Header_Set "x-uploadthing-api-key" (ApiKey c) req in
  let req := Header_Set "x-uploadthing-version" (Version c) req in
  let req := if bool_decide (fePackage u ≠ "")
             then Header_Set "x-uploadthing-fe-package" (fePackage u) req
             else req in
  let req := if bool_decide (beAdapter u ≠ "")
             then Header_Set "x-uploadthing-be-adapter" (beAdapter u) req
             else req in
  mret req.

Definition bad_status (code : Z) : bool := (code <? 200) || (300 <=? code).

Definition post (ut : ptr) (path : string) (body : option Buffer)
  : M (option Response * option error) :=
  u ← deref clients ut;
  c ← deref configs (config u);
  let url := Host c +:+ path in
  r ← http_NewRequest http_MethodPost url body;
  match r with
  | Err e => mret (None, Some e)
  | Ok req =>
      req ← setHeaders ut req;
      r ← http_Client_Do (httpClient u) req;
      match r with
      | Err e => mret (None, Some e)
      | Ok resp =>
          if bad_status (StatusCode resp)
          then
            let '(respBody, _) := io_ReadAll (Body resp) in
            mret (None, Some (Errorf ("UploadThing: error " +:+ itoa (StatusCode resp)
                                      +:+ ": " +:+ respBody)))
          else mret (Some resp, None)
      end
  end.

(** ** The package: API methods (lines 125-350) *)

Definition DeleteFiles (ut : ptr) (fileKeys : slice string)
  : M (option DeleteFilesResponse * option error) :=
  let payload := {| FileKeys := fileKeys |} in
  match json_Marshal payload with
  | Err e => mret (None, Some e)
  | Ok data =>
      '(resp, err) ← post ut "/v6/deleteFiles" (Some (bytes_NewBuffer data));
      match err with
      | Some e => mret (None, Some e)
      | None =>
          resp ← deref_Response resp;
          defer (Body_Close resp)
            match Decode_DeleteFilesResponse P (Body resp) with
            | Err e => mret (None, Some e)
            | Ok result => mret (Some result, None)
            end
      end
  end.

Definition ListFiles (ut : ptr) (limit offset : Z)
  : M (option ListFilesResponse * option error) :=
  let payload := {| Limit := limit; Offset := offset |} in
  match json_Marshal payload with
  | Err e => mret (None, Some e)
  | Ok data =>
      '(resp, err) ← post ut "/v6/listFiles" (Some (bytes_NewBuffer data));
      match err with
      | Some e => mret (None, Some e)
      | None =>
          resp ← deref_Response resp;
          defer (Body_Close resp)
            match Decode_ListFilesResponse P (Body resp) with
            | Err e => mret (None, Some e)
            | Ok result => mret (Some result, None)
            end
      end
  end.

Definition RenameFiles (ut : ptr) (updates : slice RenameFileUpdate)
  : M (option RenameFilesResponse * option error) :=
  let payload := {| Updates := updates |} in
  match json_Marshal payload with
  | Err e => mret (None, Some e)
  | Ok data =>
      '(resp, err) ← post ut "/v6/renameFiles" (Some (bytes_NewBuffer data));
      match err with
      | Some e => mret (None, Some e)
      | None =>
          resp ← deref_Response resp;
          defer (Body_Close resp)
            match Decode_RenameFilesResponse P (Body resp) with
            | Err e => mret (None, Some e)
            | Ok result => mret (Some result, None)
            end
      end
  end.

Definition GetUsageInfo (ut : ptr) : M (option UsageInfoResponse * option error) :=
  '(resp, err) ← post ut "/v6/getUsageInfo" (Some (bytes_NewBuffer "{}"));
  match err with
  | Some e => mret (None, Some e)
  | None =>
      resp ← deref_Response resp;
      defer (Body_Close resp)
        match Decode_UsageInfoResponse P (Body resp) with
        | Err e => mret (None, Some e)
        | Ok result => mret (Some result, None)
        end
  end.

Definition GetPresignedUrl (ut : ptr) (fileKey : string) (expiresIn : Z)
  : M (string * option error) :=
  let payload := {| RequestFileAccess_FileKey := fileKey; ExpiresIn := expiresIn |} in
  match json_Marshal payload with
  | Err e => mret ("", Some e)
  | Ok data =>
      '(resp, err) ← post ut "/v6/requestFileAccess" (Some (bytes_NewBuffer data));
      match err with
      | Some e => mret ("", Some e)
      | None =>
          resp ← deref_Response resp;
          defer (Body_Close resp)
            match Decode_RequestFileAccessResponse P (Body resp) with
            | Err e => mret ("", Some e)
            | Ok result => mret (UfsUrl result, None)
            end
      end
  end.

Definition GetAppInfo (ut : ptr) : M (option GetAppInfoResponse * option error) :=
  '(resp, err) ← post ut "/v7/getAppInfo" (Some (bytes_NewBuffer "{}"));
  match err with
  | Some e => mret (None, Some e)
  | None =>
      resp ← deref_Response resp;
      defer (Body_Close resp)
        match Decode_GetAppInfoResponse P (Body resp) with
        | Err e => mret (None, Some e)
        | Ok result => mret (Some result, None)
        end
  end.

Definition GetPresignedUploadUrl (ut : ptr) (files : slice UploadFileInfo) (acl : string)
  : M (option UploadFilesResponse * option error) :=
  let payload := {| Files := files; ACL := acl;
                    Metadata := None; ContentDisposition := "" |} in
  match json_Marshal payload with
  | Err e => mret (None, Some e)
  | Ok data =>
      '(resp, err) ← post ut "/v6/uploadFiles" (Some (bytes_NewBuffer data));
      match err with
      | Some e => mret (None, Some e)
      | None =>
          resp ← deref_Response resp;
          defer (Body_Close resp)
            match Decode_UploadFilesResponse P (Body resp) with
            | Err e => mret (None, Some e)
            | Ok result => mret (Some result, None)
            end
      end
  end.

(** ** mime/multipart, writing into a [bytes.Buffer] *)

Definition multipart_NewWriter : MultipartForm :=
  {| boundary := randomBoundary P; parts := []; closed := false |}.

Definition add_part (p : Part) (w : MultipartForm) : MultipartForm :=
  {| boundary := boundary w; parts := parts w ++ [p]; closed := closed w |}.

(** [WriteField]: a part holding the value; writing to a buffer cannot fail. *)
Definition multipart_WriteField (fieldname value : string) (w : MultipartForm)
  : MultipartForm * option error :=
  (add_part (FormField fieldname value) w, None).

(** [CreateFormFile]: the header of a file part, still without data.  The
    part is recorded with the field name and the file name the function was
    given; in the bytes of the header mime/multipart writes them escaped. *)
Definition multipart_CreateFormFile (fieldname filename : string) (w : MultipartForm)
  : result MultipartForm :=
  Ok (add_part (FormFile fieldname filename "") w).

(** Writing to the part writer [CreateFormFile] returned: the bytes extend
    the part written last. *)
Definition part_Write (bytes : string) (w : MultipartForm) : MultipartForm :=
  match reverse (parts w) with
  | FormFile fieldname filename data :: before =>
      {| boundary := boundary w;
         parts := reverse before ++ [FormFile fieldname filename (data +:+ bytes)];
         closed := closed w |}
  | _ => w
  end.

Definition multipart_Close (w : MultipartForm) : MultipartForm :=
  {| boundary := boundary w; parts := parts w; closed := true |}.

Definition multipart_FormDataContentType (w : MultipartForm) : string :=
  "multipart/form-data; boundary=" +:+ boundary w.

(** ** The package: uploads (lines 352-437) *)

Definition createMultipartForm (content : option Reader) (size : Z) (fileName : string)
    (fields : gmap string string) : option Buffer * string * option error :=
  let w := multipart_NewWriter in
  let w := foldl (λ w kv, fst (multipart_WriteField (fst kv) (snd kv) w))
                 w (map_range P fields) in
  match multipart_CreateFormFile "file" fileName w with
  | Err e => (None, "", Some e)
  | Ok w =>
      let '(w, err) :=
        match content with
        | Some src =>
            if 0 <? size
            then let '(bytes, err) := io_CopyN src size in (part_Write bytes w, err)
            else (w, None)
        | None => (w, None)
        end in
      match err with
      | Some e => (None, "", Some e)
      | None =>
          let w := multipart_Close w in
          (Some (FormBytes w), multipart_FormDataContentType w, None)
      end
  end.

Definition UploadFileToPresignedUrl (filePath : string) (presigned : PresignedPostURLs)
  : M (option error) :=
  r ← os_Open filePath;
  match r with
  | Err e => mret (Some e)
  | Ok file =>
      defer (File_Close file) (
        r ← File_Stat file;
        match r with
        | Err e => mret (Some e)
        | Ok fileInfo =>
            content ← File_Reader file;
            let '(body, contentType, err) :=
              createMultipartForm (Some content) (FileInfo_Size fileInfo)
                                  (FileName presigned) (Fields presigned) in
            match err with
            | Some e => mret (Some e)
            | None =>
                r ← http_NewRequest "POST" (Url presigned) body;
                match r with
                | Err e => mret (Some e)
                | Ok req =>
                    let req := Header_Set "Content-Type" contentType req in
                    client ← new_http_Client http_Client_zero;
                    r ← http_Client_Do client req;
                    match r with
                    | Err e => mret (Some e)
                    | Ok resp =>
                        defer (Body_Close resp)
                          (if bad_status (StatusCode resp)
                           then
                             let '(respBody, _) := io_ReadAll (Body resp) in
                             mret (Some (Errorf ("File upload error: "
                                                 +:+ itoa (StatusCode resp)
                                                 +:+ ": " +:+ respBody)))
                           else mret None)
                    end
                end
            end
        end)
  end.

Definition UploadContentToPresignedUrl (content : option Reader) (size : Z)
    (presigned : PresignedPostURLs) : M (option error) :=
  let '(body, contentType, err) :=
    createMultipartForm content size (FileName presigned) (Fields presigned) in
  match err with
  | Some e => mret (Some e)
  | None =>
      r ← http_NewRequest "POST" (Url presigned) body;
      match r with
      | Err e => mret (Some e)
      | Ok req =>
          let req := Header_Set "Content-Type" contentType req in
          client ← new_http_Client http_Client_zero;
          r ← http_Client_Do client req;
          match r with
          | Err e => mret (Some e)
          | Ok resp =>
              defer (Body_Close resp)
                (if bad_status (StatusCode resp)
                 then
                   let '(respBody, _) := io_ReadAll (Body resp) in
                   mret (Some (Errorf ("File upload error: " +:+ itoa (StatusCode resp)
                                       +:+ ": " +:+ respBody)))
                 else mret None)
          end
      end
  end.

End Package.

(** ** Calls on a client *)

(** One invocation of an API method, with its arguments. *)
Inductive ApiCall : Type :=
| CallDeleteFiles (fileKeys : slice string)
| CallListFiles (limit offset : Z)
| CallRenameFiles (updates : slice RenameFileUpdate)
| CallGetUsageInfo
| CallGetPresignedUrl (fileKey : string) (expiresIn : Z)
| CallGetAppInfo
| CallGetPresignedUploadUrl (files : slice UploadFileInfo) (acl : string).

(** What a method returns next to its error: a pointer to a result
    structure ([None] is nil), or a string for [GetPresignedUrl]. *)
Inductive ApiValue : Type :=
| DeleteFilesValue (r : option DeleteFilesResponse)
| ListFilesValue (r : option ListFilesResponse)
| RenameFilesValue (r : option RenameFilesResponse)
| UsageInfoValue (r : option UsageInfoResponse)
| PresignedUrlValue (url : string)
| AppInfoValue (r : option GetAppInfoResponse)
| UploadFilesValue (r : option UploadFilesResponse).

Definition invoke (P : Platform) (ut : ptr) (call : ApiCall)
  : M (ApiValue * option error) :=
  match call with
  | CallDeleteFiles fileKeys =>
      '(r, err) ← DeleteFiles P ut fileKeys; mret (DeleteFilesValue r, err)
  | CallListFiles limit offset =>
      '(r, err) ← ListFiles P ut limit offset; mret (ListFilesValue r, err)
  | CallRenameFiles updates =>
      '(r, err) ← RenameFiles P ut updates; mret (RenameFilesValue r, err)
  | CallGetUsageInfo =>
      '(r, err) ← GetUsageInfo P ut; mret (UsageInfoValue r, err)
  | CallGetPresignedUrl fileKey expiresIn =>
      '(r, err) ← GetPresignedUrl P ut fileKey expiresIn; mret (PresignedUrlValue r, err)
  | CallGetAppInfo =>
      '(r, err) ← GetAppInfo P ut; mret (AppInfoValue r, err)
  | CallGetPresignedUploadUrl files acl =>
      '(r, err) ← GetPresignedUploadUrl P ut files acl; mret (UploadFilesValue r, err)
  end.

(** A sequence of calls on one client; a panic ends it. *)
Fixpoint run_calls (P : Platform) (ut : ptr) (calls : list ApiCall)
  : M (list (ApiValue * option error)) :=
  match calls with
  | [] => mret []
  | call :: rest =>
      r ← invoke P ut call;
      rs ← run_calls P ut rest;
      mret (r :: rs)
  end.

(** The client a pointer leads to, with its configuration: what a method
    with receiver [ut] reads through [ut.config] and [ut.httpClient]. *)
Definition live_client (w : World) (ut : ptr) : option (UtApi * uploadthingConfig) :=
  u ← lookup_ptr (clients w) ut;
  c ← lookup_ptr (configs w) (config u);
  _ ← lookup_ptr (httpClients w) (httpClient u);
  Some (u, c).

(** *** The wire contract, in the words of the specification *)

(** The fixed endpoint of each method. *)
Definition endpoint (call : ApiCall) : string :=
  match call with
  | CallDeleteFiles _ => "/v6/deleteFiles"
  | CallListFiles _ _ => "/v6/listFiles"
  | CallRenameFiles _ => "/v6/renameFiles"
  | CallGetUsageInfo => "/v6/getUsageInfo"
  | CallGetPresignedUrl _ _ => "/v6/requestFileAccess"
  | CallGetAppInfo => "/v7/getAppInfo"
  | CallGetPresignedUploadUrl _ _ => "/v6/uploadFiles"
  end.

(** The JSON document each method sends: [{"fileKeys": [...]}],
    [{"limit": ..., "offset": ...}], [{"updates": [...]}], [{}], ... *)
Definition request_document (call : ApiCall) : json :=
  match call with
  | CallDeleteFiles fileKeys =>
      JObject [("fileKeys", json_slice JString fileKeys)]
  | CallListFiles limit offset =>
      JObject [("limit", JNumber limit); ("offset", JNumber offset)]
  | CallRenameFiles updates =>
      JObject [("updates",
                json_slice (λ u, JObject [("fileKey", JString (FileKey u));
                                          ("newName", JString (NewName u))]) updates)]
  | CallGetUsageInfo => JObject []
  | CallGetPresignedUrl fileKey expiresIn =>
      JObject (("fileKey", JString fileKey)
               :: if expiresIn =? 0 then [] else [("expiresIn", JNumber expiresIn)])
  | CallGetAppInfo => JObject []
  | CallGetPresignedUploadUrl files acl =>
      JObject [("files",
                json_slice (λ f, JObject ([("name", JString (Name f));
                                           ("size", JNumber (Size f));
                                           ("type", JString (Type_ f))]
                                          ++ match CustomId f with
                                             | None => []
                                             | Some s => [("customId", JString s)]
                                             end)) files);
               ("acl", JString acl)]
  end.

(** The headers every request of a client carries. *)
Definition carries_headers (u : UtApi) (c : uploadthingConfig) (req : Request) : Prop :=
  Header req !! "Content-Type" = Some "application/json"
  ∧ Header req !! "x-uploadthing-api-key" = Some (ApiKey c)
  ∧ Header req !! "x-uploadthing-version" = Some (Version c)
  ∧ Header req !! "x-uploadthing-fe-package"
    = (if bool_decide (fePackage u = "") then None else Some (fePackage u))
  ∧ Header req !! "x-uploadthing-be-adapter"
    = (if bool_decide (beAdapter u = "") then None else Some (beAdapter u)).

(** The result structure matching each method, decoded from a body. *)
Definition decode_result (P : Platform) (call : ApiCall) (body : Reader)
  : result ApiValue :=
  match call with
  | CallDeleteFiles _ =>
      match Decode_DeleteFilesResponse P body with
      | Ok r => Ok (DeleteFilesValue (Some r)) | Err e => Err e
      end
  | CallListFiles _ _ =>
      match Decode_ListFilesResponse P body with
      | Ok r => Ok (ListFilesValue (Some r)) | Err e => Err e
      end
  | CallRenameFiles _ =>
      match Decode_RenameFilesResponse P body with
      | Ok r => Ok (RenameFilesValue (Some r)) | Err e => Err e
      end
  | CallGetUsageInfo =>
      match Decode_UsageInfoResponse P body with
      | Ok r => Ok (UsageInfoValue (Some r)) | Err e => Err e
      end
  | CallGetPresignedUrl _ _ =>
      match Decode_RequestFileAccessResponse P body with
      | Ok r => Ok (PresignedUrlValue (UfsUrl r)) | Err e => Err e
      end
  | CallGetAppInfo =>
      match Decode_GetAppInfoResponse P body with
      | Ok r => Ok (AppInfoValue (Some r)) | Err e => Err e
      end
  | CallGetPresignedUploadUrl _ _ =>
      match Decode_UploadFilesResponse P body with
      | Ok r => Ok (UploadFilesValue (Some r)) | Err e => Err e
      end
  end.

(** The value returned together with an error: a nil pointer, or the
    empty string. *)
Definition zero_value (call : ApiCall) : ApiValue :=
  match call with
  | CallDeleteFiles _ => DeleteFilesValue None
  | CallListFiles _ _ => ListFilesValue None
  | CallRenameFiles _ => RenameFilesValue None
  | CallGetUsageInfo => UsageInfoValue None
  | CallGetPresignedUrl _ _ => PresignedUrlValue ""
  | CallGetAppInfo => AppInfoValue None
  | CallGetPresignedUploadUrl _ _ => UploadFilesValue None
  end.

(** The result pointer of a pointer-returning method ([None] for
    [GetPresignedUrl], which returns a string). *)
Definition result_pointer (v : ApiValue) : option bool :=
  match v with
  | DeleteFilesValue r => Some (bool_decide (is_Some r))
  | ListFilesValue r => Some (bool_decide (is_Some r))
  | RenameFilesValue r => Some (bool_decide (is_Some r))
  | UsageInfoValue r => Some (bool_decide (is_Some r))
  | PresignedUrlValue _ => None
  | AppInfoValue r => Some (bool_decide (is_Some r))
  | UploadFilesValue r => Some (bool_decide (is_Some r))
  end.

(** The request of a call, as the transport receives it. *)
Definition api_headers (u : UtApi) (c : uploadthingConfig) : gmap string string :=
  let h := <["x-uploadthing-version" := Version c]>
             (<["x-uploadthing-api-key" := ApiKey c]>
                (<["Content-Type" := "application/json"]> ∅)) in
  let h := if bool_decide (fePackage u ≠ "")
           then <["x-uploadthing-fe-package" := fePackage u]> h else h in
  if bool_decide (beAdapter u ≠ "")
  then <["x-uploadthing-be-adapter" := beAdapter u]> h else h.

Definition api_request (P : Platform) (u : UtApi) (c : uploadthingConfig)
    (call : ApiCall) : Request :=
  {| Method := "POST";
     URL := Host c +:+ endpoint call;
     Header := api_headers u c;
     ReqBody := RawBytes (compact P (request_document call)) |}.

Definition status_error (resp : Response) : error :=
  Errorf ("UploadThing: error " +:+ itoa (StatusCode resp) +:+ ": "
          +:+ available (Body resp)).

(** One exchange with the provider: what every API method amounts to on a
    live client. *)
Definition exchange (P : Platform) (u : UtApi) (c : uploadthingConfig)
    (call : ApiCall) : M (ApiValue * option error) := λ w,
  let req := api_request P u c call in
  match url_Parse P (URL req) with
  | Some e => Return (zero_value call, Some e) w
  | None =>
      let w1 := set_sent (sent w ++ [req]) w in
      match RoundTrip P (sent w) req with
      | Err e => Return (zero_value call, Some e) w1
      | Ok resp =>
          if bad_status (StatusCode resp)
          then Return (zero_value call, Some (status_error resp))
                      (set_open_bodies (S (open_bodies w)) w1)
          else
            Return match decode_result P call (Body resp) with
                   | Ok v => (v, None)
                   | Err e => (zero_value call, Some e)
                   end
                   (set_open_bodies (open_bodies w)
                      (set_open_bodies (S (open_bodies w)) w1))
      end
  end.

(** *** Vocabulary of the claims *)

(** A computation leaves a component of the world as it found it, whether
    it returns or panics. *)
Definition preserves {X A} (f : World → X) (m : M A) : Prop :=
  ∀ w, f (final_world (m w)) = f w.

(** The Go heap: the client objects, their configurations and their HTTP
    clients. *)
Definition heap_of (w : World) :
    gmap loc UtApi * gmap loc uploadthingConfig * gmap loc http_Client :=
  (clients w, configs w, httpClients w).

(** A computation hands at most one request to the transport. *)
Definition at_most_one_request {A} (m : M A) : Prop :=
  ∀ w, sent (final_world (m w)) = sent w
       ∨ ∃ req, sent (final_world (m w)) = sent w ++ [req].

(** The HTTP requests behind a log of calls of [Do], made after the calls
    [before]: those each call puts on the wire, in order. *)
Fixpoint on_wire (P : Platform) (before log : list Request) : list Request :=
  match log with
  | [] => []
  | req :: rest => Issued P before req ++ on_wire P (before ++ [req]) rest
  end.

(** A computation puts at most one HTTP request on the wire. *)
Definition at_most_one_http_request (P : Platform) {A} (m : M A) : Prop :=
  ∀ w, ∃ new, sent (final_world (m w)) = sent w ++ new
              ∧ (length (on_wire P (sent w) new) ≤ 1)%nat.

(** The provider answered the request of a call. *)
Definition answered (P : Platform) (w : World) (u : UtApi) (c : uploadthingConfig)
    (call : ApiCall) (resp : Response) : Prop :=
  url_Parse P (URL (api_request P u c call)) = None
  ∧ RoundTrip P (sent w) (api_request P u c call) = Ok resp.

(** The HTTP call fails: net/http cannot build the request, or the
    transport reports an error. *)
Definition http_call_fails (P : Platform) (w : World) (u : UtApi)
    (c : uploadthingConfig) (call : ApiCall) (e : error) : Prop :=
  url_Parse P (URL (api_request P u c call)) = Some e
  ∨ (url_Parse P (URL (api_request P u c call)) = None
     ∧ RoundTrip P (sent w) (api_request P u c call) = Err e).

(** The status of the answer is outside 200-299. *)
Definition status_rejected (P : Platform) (w : World) (u : UtApi)
    (c : uploadthingConfig) (call : ApiCall) (e : error) : Prop :=
  ∃ resp, answered P w u c call resp
          ∧ (StatusCode resp < 200 ∨ 299 < StatusCode resp)
          ∧ e = status_error resp.

(** The body of a 2xx answer does not decode. *)
Definition decode_fails (P : Platform) (w : World) (u : UtApi)
    (c : uploadthingConfig) (call : ApiCall) (e : error) : Prop :=
  ∃ resp, answered P w u c call resp
          ∧ 200 ≤ StatusCode resp ≤ 299
          ∧ decode_result P call (Body resp) = Err e.

(** The parts [mime/multipart] writes for the form fields of a presigned
    URL, one per field. *)
Definition field_parts (fields : gmap string string) : list Part :=
  map (λ kv, FormField (fst kv) (snd kv)) (map_to_list fields).

(** The reader an open file gives: its content, cut short by a read
    fault of the platform. *)
Definition file_reader (P : Platform) (name text : string) : Reader :=
  match os_Read_fault P name with
  | Some (n, e) => {| available := substring 0 n text; failure := Some e |}
  | None => {| available := text; failure := None |}
  end.

(** The form [createMultipartForm] leaves in its buffer once it holds the
    file data. *)
Definition written_form (P : Platform) (fileName : string)
    (fields : gmap string string) (data : string) : MultipartForm :=
  {| boundary := randomBoundary P;
     parts := map (λ kv, FormField (fst kv) (snd kv)) (map_range P fields)
              ++ [FormFile "file" fileName data];
     closed := true |}.

(** The multipart body of an upload: the form fields of the presigned URL
    in some order, then the file part, then the closing boundary. *)
Definition upload_body (P : Platform) (presigned : PresignedPostURLs)
    (data : string) (b : Buffer) : Prop :=
  ∃ fps, fps ≡ₚ field_parts (Fields presigned)
         ∧ b = FormBytes {| boundary := randomBoundary P;
                            parts := fps ++ [FormFile "file" (FileName presigned) data];
                            closed := true |}.

(** What both upload functions do once the form is built: from
    [http.NewRequest] to the status check (lines 393-408 and 421-436). *)
Definition send_form (P : Platform) (url : string) (body : option Buffer)
    (contentType : string) : M (option error) :=
  r ← http_NewRequest P "POST" url body;
  match r with
  | Err e => mret (Some e)
  | Ok req =>
      let req := Header_Set "Content-Type" contentType req in
      client ← new_http_Client http_Client_zero;
      r ← http_Client_Do P client req;
      match r with
      | Err e => mret (Some e)
      | Ok resp =>
          defer (Body_Close resp)
            (if bad_status (StatusCode resp)
             then
               let '(respBody, _) := io_ReadAll (Body resp) in
               mret (Some (Errorf ("File upload error: " +:+ itoa (StatusCode resp)
                                   +:+ ": " +:+ respBody)))
             else mret None)
      end
  end.

(** *** A small platform and world, to run the package on *)

Definition dquote : string := String "034"%char EmptyString.

Definition demo_response : Response :=
  {| StatusCode := 200; Body := {| available := "{}"; failure := None |} |}.

Definition read_error : error := LibError "os" "read: input/output error".

(** A platform whose provider answers every request with [demo_response],
    and whose files fail to read as [fault] says. *)
Definition demo_platform_with (fault : option (nat * error)) : Platform :=
  {| json_quote := λ s, dquote +:+ s +:+ dquote;
     Decode_DeleteFilesResponse := λ _,
       Ok {| DeleteFiles_Success := false; DeletedCount := 0 |};
     Decode_ListFilesResponse := λ _,
       Ok {| HasMore := false; ListFiles_Files := None |};
     Decode_RenameFilesResponse := λ _,
       Ok {| RenameFiles_Success := false; RenamedCount := 0 |};
     Decode_UsageInfoResponse := λ _,
       Ok {| TotalBytes := 0; AppTotalBytes := 0; FilesUploaded := 0; LimitBytes := 0 |};
     Decode_RequestFileAccessResponse := λ _,
       Ok {| UfsUrl := ""; RequestFileAccess_Url := "" |};
     Decode_GetAppInfoResponse := λ _,
       Ok {| AppId := ""; DefaultACL := ""; AllowACLOverride := false |};
     Decode_UploadFilesResponse := λ _, Ok {| Data := None |};
     url_Parse := λ _, None;
     RoundTrip := λ _ _, Ok demo_response;
     Issued := λ _ req, [req];
     godotenv_Parse := λ text, Ok {[ "UPLOADTHING_SECRET" := text ]};
     map_range := map_to_list;
     map_range_perm := λ m, reflexivity (map_to_list m);
     randomBoundary := "0123456789abcdef";
     os_Stat_fault := λ _, None;
     os_Read_fault := λ _, fault |}.

Definition demo_platform : Platform := demo_platform_with None.

(** A process with an empty environment next to a [.env] file. *)
Definition demo_world : World :=
  {| environ := ∅;
     files := {[ ".env" := "sk_live_demo" ]};
     stdout := [];
     configs := ∅; httpClients := ∅; clients := ∅;
     sent := [];
     open_files := ∅;
     open_bodies := 0 |}.

(** The same process once [NewUtApi] has run: its client is at address 1. *)
Definition demo_client_world : World := final_world (NewUtApi demo_platform demo_world).

(** Address 1, of the first object of each kind. *)
Definition demo_ptr : ptr := addr 1%positive.

Definition demo_config : uploadthingConfig :=
  {| Host := "https://api.uploadthing.com"; ApiKey := "sk_live_demo"; Version := "7.6.0" |}.

Definition demo_client : UtApi :=
  {| config := demo_ptr; httpClient := demo_ptr; fePackage := "";
     beAdapter := "github.com/IXackerr/utapi-go" |}.

(** A process that has the secret in its environment but no [.env] file. *)
Definition demo_world_without_dotenv : World :=
  set_environ {[ "UPLOADTHING_SECRET" := "sk_live_demo" ]} (set_files ∅ demo_world).

(** A process whose [.env] file defines an empty secret. *)
Definition demo_world_empty_secret : World := set_files {[ ".env" := "" ]} demo_world.

(** A process with a file to upload, and a presigned URL for it. *)
Definition demo_upload_world : World := set_files {[ "notes.txt" := "hello" ]} demo_world.

Definition demo_presigned : PresignedPostURLs :=
  {| Key := "k1"; FileName := "notes.txt"; FileType := "text/plain"; FileUrl := "";
     Presigned_ContentDisposition := ""; PollingJwt := ""; PollingUrl := "";
     Presigned_CustomId := None; Url := "https://ingest.example/upload";
     Fields := {[ "policy" := "abc" ]} |}.

Definition demo_content : Reader := {| available := "hello world"; failure := None |}.

(** The request either upload function sends for five bytes [hello]. *)
Definition demo_upload_request : Request :=
  {| Method := "POST";
     URL := "https://ingest.example/upload";
     Header := {[ "Content-Type" := "multipart/form-data; boundary=0123456789abcdef" ]};
     ReqBody := FormBytes {| boundary := "0123456789abcdef";
                             parts := [FormField "policy" "abc";
                                       FormFile "file" "notes.txt" "hello"];
                             closed := true |} |}.

Definition demo_file : File := {| fd := 1%positive; path := "notes.txt" |}.

Definition demo_call : ApiCall := CallDeleteFiles (Some ["file-key"]).

Definition demo_calls : list ApiCall :=
  [CallGetUsageInfo; demo_call; CallGetPresignedUrl "file-key" 3600].

(** The worlds [godotenv.Load] leaves. *)
Definition demo_loaded_world : World :=
  final_world (godotenv_Load demo_platform ".env" demo_world).

Definition demo_loaded_empty_secret : World :=
  final_world (godotenv_Load demo_platform ".env" demo_world_empty_secret).

(** A platform on which reading a file fails after two bytes. *)
Definition demo_faulty_platform : Platform := demo_platform_with (Some (2%nat, read_error)).

(** The world of the client after one earlier call. *)
Definition demo_later_world : World :=
  final_world (invoke demo_platform demo_ptr CallGetAppInfo demo_client_world).

(** *** Vocabulary of the further properties *)



(** The header names [setHeaders] may write. *)
Definition client_header_names : list string :=
  ["Content-Type"; "x-uploadthing-api-key"; "x-uploadthing-version";
   "x-uploadthing-fe-package"; "x-uploadthing-be-adapter"].

(** The headers of a request once [setHeaders] has run on it. *)
Definition stamped_headers (u : UtApi) (c : uploadthingConfig)
    (h : gmap string string) : gmap string string :=
  let h := <["x-uploadthing-version" := Version c]>
             (<["x-uploadthing-api-key" := ApiKey c]>
                (<["Content-Type" := "application/json"]> h)) in
  let h := if bool_decide (fePackage u ≠ "")
           then <["x-uploadthing-fe-package" := fePackage u]> h else h in
  if bool_decide (beAdapter u ≠ "")
  then <["x-uploadthing-be-adapter" := beAdapter u]> h else h.

(** What surrounds the client in the world: environment, file system,
    standard output and open descriptors. *)
Definition surroundings (w : World) :
    gmap string string * gmap string string * list string * gmap positive string :=
  (environ w, files w, stdout w, open_files w).

(** The request an upload function sends for a form. *)
Definition upload_request (url contentType : string) (body : Buffer) : Request :=
  {| Method := "POST"; URL := url;
     Header := {[ "Content-Type" := contentType ]}; ReqBody := body |}.

(** The error an upload function builds for a status outside 200-299. *)
Definition upload_status_error (resp : Response) : error :=
  Errorf ("File upload error: " +:+ itoa (StatusCode resp) +:+ ": "
          +:+ available (Body resp)).

(** The content type [FormDataContentType] announces. *)
Definition form_content_type (P : Platform) : string :=
  "multipart/form-data; boundary=" +:+ randomBoundary P.

(** More small worlds: an environment with two variables and no file, and
    a process that has a secret both in its environment and in [.env]. *)
Definition demo_env_world : World :=
  set_environ {[ "HOME" := "/root"; "EMPTY" := "" ]} (set_files ∅ demo_world).

Definition demo_keys : slice string := Some ["HOME"; "EMPTY"; "UPLOADTHING_SECRET"].


Definition demo_failed_world : World :=
  final_world (NewUtApi demo_platform demo_world_without_dotenv).

(** A platform on which [Stat] fails with [e], and otherwise like [P]. *)
Definition with_stat_fault (e : error) (P : Platform) : Platform :=
  {| json_quote := json_quote P;
     Decode_DeleteFilesResponse := Decode_DeleteFilesResponse P;
     Decode_ListFilesResponse := Decode_ListFilesResponse P;
     Decode_RenameFilesResponse := Decode_RenameFilesResponse P;
     Decode_UsageInfoResponse := Decode_UsageInfoResponse P;
     Decode_RequestFileAccessResponse := Decode_RequestFileAccessResponse P;
     Decode_GetAppInfoResponse := Decode_GetAppInfoResponse P;
     Decode_UploadFilesResponse := Decode_UploadFilesResponse P;
     url_Parse := url_Parse P;
     RoundTrip := RoundTrip P;
     Issued := Issued P;
     godotenv_Parse := godotenv_Parse P;
     map_range := map_range P;
     map_range_perm := map_range_perm P;
     randomBoundary := randomBoundary P;
     os_Stat_fault := λ _, Some e;
     os_Read_fault := os_Read_fault P |}.

Definition stat_error : error := LibError "os" "stat: input/output error".

Definition demo_stat_fault_platform : Platform := with_stat_fault stat_error demo_platform.

(** The request the client makes on its own when the answer to [req] is
    307 Temporary Redirect with the location [location]: the method, the
    headers and the body of [req] again, and a [Referer]. *)
Definition redirected (location : string) (req : Request) : Request :=
  {| Method := Method req; URL := location;
     Header := <["Referer" := URL req]> (Header req); ReqBody := ReqBody req |}.

(** A platform whose provider answers a request with 307 and [location],
    and the request to that location as [P] says: within one call of [Do]
    the client sends the request, follows the redirect, and returns the
    second answer. *)
Definition with_redirect (location : string) (P : Platform) : Platform :=
  {| json_quote := json_quote P;
     Decode_DeleteFilesResponse := Decode_DeleteFilesResponse P;
     Decode_ListFilesResponse := Decode_ListFilesResponse P;
     Decode_RenameFilesResponse := Decode_RenameFilesResponse P;
     Decode_UsageInfoResponse := Decode_UsageInfoResponse P;
     Decode_RequestFileAccessResponse := Decode_RequestFileAccessResponse P;
     Decode_GetAppInfoResponse := Decode_GetAppInfoResponse P;
     Decode_UploadFilesResponse := Decode_UploadFilesResponse P;
     url_Parse := url_Parse P;
     RoundTrip := RoundTrip P;
     Issued := λ _ req, [req; redirected location req];
     godotenv_Parse := godotenv_Parse P;
     map_range := map_range P;
     map_range_perm := map_range_perm P;
     randomBoundary := randomBoundary P;
     os_Stat_fault := os_Stat_fault P;
     os_Read_fault := os_Read_fault P |}.

Definition redirecting_platform : Platform :=
  with_redirect "https://eu.api.uploadthing.com/v6/deleteFiles" demo_platform.

(** Header names net/http takes for one another: equal up to the case of
    their letters. *)
Definition ascii_lower (c : ascii) : ascii :=
  let n := nat_of_ascii c in
  if ((65 <=? n) && (n <=? 90))%nat then ascii_of_nat (n + 32) else c.

Fixpoint string_lower (s : string) : string :=
  match s with
  | EmptyString => EmptyString
  | String c rest => String (ascii_lower c) (string_lower rest)
  end.

Definition same_header_name (a b : string) : Prop := string_lower a = string_lower b.

Definition demo_request : Request :=
  {| Method := "POST"; URL := "https://api.uploadthing.com/v6/listFiles";
     Header := {[ "Accept" := "*/*"; "x-uploadthing-api-key" := "stale" ]};
     ReqBody := RawBytes "{}" |}.

(** * Properties *)

(** ** Rules for [preserves] *)

Section Preserves.

Context {X : Type} (f : World → X).

Lemma preserves_ret {A} (a : A) : preserves f (mret a).
Proof. by intros w. Qed.

Lemma preserves_panic {A} msg : preserves f (@panic A msg).
Proof. by intros w. Qed.

Lemma preserves_bind {A B} (m : M A) (k : A → M B) :
  preserves f m → (∀ a, preserves f (k a)) → preserves f (m ≫= k).
Proof.
  intros Hm Hk w. unfold mbind, M_bind. specialize (Hm w).
  destruct (m w) as [a w'|msg w']; simpl in *; [|done].
  by rewrite Hk.
Qed.

Lemma preserves_defer {A} (cleanup : M unit) (rest : M A) :
  preserves f cleanup → preserves f rest → preserves f (defer cleanup rest).
Proof.
  intros Hc Hr w. unfold defer. specialize (Hr w).
  destruct (rest w) as [a w'|msg w']; simpl in *.
  - specialize (Hc w'). destruct (cleanup w'); simpl in *; congruence.
  - by rewrite Hc.
Qed.

Lemma preserves_deref {A} (heap : World → gmap loc A) p : preserves f (deref heap p).
Proof. intros w. unfold deref. by destruct (lookup_ptr _ _). Qed.

Lemma preserves_deref_Response resp : preserves f (deref_Response resp).
Proof. destruct resp; by intros w. Qed.

Lemma preserves_NewRequest P method url body :
  preserves f (http_NewRequest P method url body).
Proof. intros w. unfold http_NewRequest. by repeat case_match. Qed.

Lemma preserves_Body_Close resp :
  (∀ n w, f (set_open_bodies n w) = f w) → preserves f (Body_Close resp).
Proof. intros H w. apply H. Qed.

Lemma preserves_http_send P req :
  (∀ n w, f (set_open_bodies n w) = f w) →
  (∀ l w, f (set_sent l w) = f w) →
  preserves f (http_send P req).
Proof.
  intros Hb Hs w. unfold http_send.
  destruct (RoundTrip _ _ _); simpl; by rewrite ?Hb, ?Hs.
Qed.

Lemma preserves_new_http_Client c :
  (∀ h w, f (set_httpClients h w) = f w) → preserves f (new_http_Client c).
Proof. intros H w. apply H. Qed.

Lemma preserves_os_Open name :
  (∀ o w, f (set_open_files o w) = f w) → preserves f (os_Open name).
Proof. intros H w. unfold os_Open. destruct (files w !! name); simpl; [apply H|done]. Qed.

Lemma preserves_File_Close file :
  (∀ o w, f (set_open_files o w) = f w) → preserves f (File_Close file).
Proof. intros H w. apply H. Qed.

Lemma preserves_File_Stat P file : preserves f (File_Stat P file).
Proof. intros w. unfold File_Stat. by repeat case_match. Qed.

Lemma preserves_File_Reader P file : preserves f (File_Reader P file).
Proof. by intros w. Qed.

End Preserves.

(** One step of a [preserves] proof: the rule of the construct at the head
    of the computation. *)
Ltac preserves_step :=
  lazymatch goal with
  | |- preserves _ (mret _) => apply preserves_ret
  | |- preserves _ (panic _) => apply preserves_panic
  | |- preserves _ (_ ≫= _) => apply preserves_bind; [|intros ?]
  | |- preserves _ (defer _ _) => apply preserves_defer
  | |- preserves _ (deref _ _) => apply preserves_deref
  | |- preserves _ (deref_Response _) => apply preserves_deref_Response
  | |- preserves _ (http_NewRequest _ _ _ _) => apply preserves_NewRequest
  | |- preserves _ (Body_Close _) => apply preserves_Body_Close; done
  | |- preserves _ (http_send _ _) => apply preserves_http_send; done
  | |- preserves _ (new_http_Client _) => apply preserves_new_http_Client; done
  | |- preserves _ (File_Stat _ _) => apply preserves_File_Stat
  | |- preserves _ (File_Reader _ _) => apply preserves_File_Reader
  | |- preserves _ (http_Client_Do _ _ _) => unfold http_Client_Do
  | |- preserves _ (setHeaders _ _) => unfold setHeaders
  | |- preserves _ (match ?x with _ => _ end) => destruct x
  end.

Ltac unfold_methods :=
  unfold invoke, DeleteFiles, ListFiles, RenameFiles, GetUsageInfo, GetPresignedUrl,
    GetAppInfo, GetPresignedUploadUrl, json_Marshal.

(** ** Strings and lists *)

Lemma substring_all s n : (String.length s ≤ n)%nat → substring 0 n s = s.
Proof.
  revert n. induction s as [|a s IH]; intros [|n] Hn; simpl in *; try done; try lia.
  f_equal. apply IH. lia.
Qed.

Lemma length_substring_0 s n :
  String.length (substring 0 n s) = Nat.min n (String.length s).
Proof.
  revert n. induction s as [|a s IH]; intros [|n]; simpl; try done.
  by rewrite IH.
Qed.

Lemma snoc_not_nil {A} (l : list A) x : l ≠ l ++ [x].
Proof.
  intros H. apply (f_equal length) in H. rewrite length_app in H. simpl in H. lia.
Qed.

Lemma bad_status_true s : bad_status s = true ↔ s < 200 ∨ 299 < s.
Proof. unfold bad_status. rewrite orb_true_iff, Z.ltb_lt, Z.leb_le. lia. Qed.

Lemma bad_status_false s : bad_status s = false ↔ 200 ≤ s ≤ 299.
Proof. unfold bad_status. rewrite orb_false_iff, Z.ltb_ge, Z.leb_gt. lia. Qed.

Section Frames.

Context (P : Platform).

(** ** What the methods leave alone *)

Lemma post_heap ut path body : preserves heap_of (post P ut path body).
Proof. unfold post. repeat preserves_step. Qed.

Lemma invoke_heap ut call : preserves heap_of (invoke P ut call).
Proof.
  destruct call; unfold_methods; cbv iota;
    (apply preserves_bind; [|intros [??]; apply preserves_ret]).
  all: apply preserves_bind; [apply post_heap|intros ?].
  all: repeat preserves_step.
Qed.

Lemma run_calls_heap ut calls : preserves heap_of (run_calls P ut calls).
Proof.
  induction calls as [|call rest IH]; simpl.
  - apply preserves_ret.
  - apply preserves_bind; [apply invoke_heap|intros ?].
    apply preserves_bind; [apply IH|intros ?]. apply preserves_ret.
Qed.

Lemma live_client_heap w w' ut :
  heap_of w' = heap_of w → live_client w' ut = live_client w ut.
Proof. unfold heap_of, live_client. by intros [= -> -> ->]. Qed.

(** ** Requests handed to the transport *)

Lemma silent_one {A} (m : M A) : preserves sent m → at_most_one_request m.
Proof. intros H w. left. apply H. Qed.

Lemma one_bind_first {A B} (m : M A) (k : A → M B) :
  at_most_one_request m → (∀ a, preserves sent (k a)) → at_most_one_request (m ≫= k).
Proof.
  intros Hm Hk w. unfold mbind, M_bind. specialize (Hm w).
  destruct (m w) as [a w'|msg w']; simpl in *; [|done].
  by rewrite (Hk a w').
Qed.

Lemma one_bind_second {A B} (m : M A) (k : A → M B) :
  preserves sent m → (∀ a, at_most_one_request (k a)) → at_most_one_request (m ≫= k).
Proof.
  intros Hm Hk w. unfold mbind, M_bind. specialize (Hm w).
  destruct (m w) as [a w'|msg w']; simpl in *; [|by left].
  rewrite <- Hm. apply Hk.
Qed.

Lemma one_defer {A} (cleanup : M unit) (rest : M A) :
  preserves sent cleanup → at_most_one_request rest →
  at_most_one_request (defer cleanup rest).
Proof.
  intros Hc Hr w. unfold defer. specialize (Hr w).
  destruct (rest w) as [a w'|msg w']; simpl in *.
  - specialize (Hc w'). destruct (cleanup w'); simpl in *; by rewrite Hc.
  - by rewrite (Hc w').
Qed.

Lemma one_http_send req : at_most_one_request (http_send P req).
Proof.
  intros w. right. exists req. unfold http_send.
  by destruct (RoundTrip _ _ _).
Qed.

Lemma one_Do c req : at_most_one_request (http_Client_Do P c req).
Proof.
  unfold http_Client_Do. apply one_bind_second; [apply preserves_deref|intros _].
  apply one_http_send.
Qed.

Lemma post_one ut path body : at_most_one_request (post P ut path body).
Proof.
  unfold post.
  do 3 (apply one_bind_second; [by repeat preserves_step|intros ?]).
  destruct a1; [|by apply silent_one, preserves_ret].
  apply one_bind_second; [by repeat preserves_step|intros ?].
  apply one_bind_first; [apply one_Do|intros ?].
  repeat preserves_step.
Qed.

Lemma invoke_one ut call : at_most_one_request (invoke P ut call).
Proof.
  destruct call; unfold_methods; cbv iota;
    (apply one_bind_first; [|intros [??]; apply preserves_ret]).
  all: apply one_bind_first; [apply post_one|intros ?].
  all: repeat preserves_step.
Qed.

End Frames.

Section Uploads.

Context (P : Platform).

(** ** The multipart form *)

Lemma foldl_WriteField l w :
  foldl (λ w kv, fst (multipart_WriteField (fst kv) (snd kv) w)) w l
  = {| boundary := boundary w;
       parts := parts w ++ map (λ kv, FormField (fst kv) (snd kv)) l;
       closed := closed w |}.
Proof.
  revert w. induction l as [|kv l IH]; intros [b ps c]; simpl.
  - by rewrite app_nil_r.
  - rewrite IH. simpl. by rewrite <- app_assoc.
Qed.

Lemma part_Write_file bytes b ps f n d c :
  part_Write bytes {| boundary := b; parts := ps ++ [FormFile f n d]; closed := c |}
  = {| boundary := b; parts := ps ++ [FormFile f n (d +:+ bytes)]; closed := c |}.
Proof. unfold part_Write. simpl. by rewrite reverse_snoc, reverse_involutive. Qed.

Lemma createMultipartForm_run content size fileName fields :
  createMultipartForm P content size fileName fields =
  let ok data := (Some (FormBytes (written_form P fileName fields data)),
                  "multipart/form-data; boundary=" +:+ randomBoundary P, None) in
  match content with
  | Some src =>
      if 0 <? size
      then if (Z.to_nat size <=? String.length (available src))%nat
           then ok (substring 0 (Z.to_nat size) (available src))
           else (None, "", Some (default io_EOF (failure src)))
      else ok ""
  | None => ok ""
  end.
Proof.
  unfold createMultipartForm, multipart_CreateFormFile, multipart_NewWriter, add_part.
  rewrite foldl_WriteField. cbn [boundary parts closed app].
  destruct content as [src|]; [|done].
  destruct (0 <? size); [|done].
  unfold io_CopyN. destruct (_ <=? _)%nat; [|done].
  by rewrite part_Write_file.
Qed.

Lemma written_form_body presigned data :
  upload_body P presigned data
    (FormBytes (written_form P (FileName presigned) (Fields presigned) data)).
Proof.
  eexists. split; [|done]. unfold field_parts. by rewrite (map_range_perm P).
Qed.

Lemma file_reader_whole name text :
  (String.length text ≤ String.length (available (file_reader P name text)))%nat →
  substring 0 (String.length text) (available (file_reader P name text)) = text.
Proof.
  unfold file_reader. destruct (os_Read_fault P name) as [[n e]|]; simpl.
  - rewrite length_substring_0. intros Hn.
    rewrite (substring_all text n) by lia. by apply substring_all.
  - intros _. by apply substring_all.
Qed.

(** ** Sending the form *)

Lemma send_form_one url body ct : at_most_one_request (send_form P url body ct).
Proof.
  unfold send_form.
  apply one_bind_second; [by repeat preserves_step|intros [req|e]].
  - apply one_bind_second; [by repeat preserves_step|intros ?].
    apply one_bind_first; [apply one_Do|intros ?]. repeat preserves_step.
  - apply silent_one, preserves_ret.
Qed.

Lemma send_form_files url body ct : preserves open_files (send_form P url body ct).
Proof. unfold send_form. repeat preserves_step. Qed.

Lemma send_form_sent url b ct w :
  sent (final_world (send_form P url (Some b) ct w))
  = match url_Parse P url with
    | Some _ => sent w
    | None => sent w ++ [{| Method := "POST"; URL := url;
                            Header := {[ "Content-Type" := ct ]}; ReqBody := b |}]
    end.
Proof.
  unfold send_form, mbind, M_bind, http_NewRequest.
  destruct (url_Parse P url); [done|].
  unfold new_http_Client, http_Client_Do, mbind, M_bind, deref. simpl.
  rewrite lookup_insert_eq. unfold http_send, Header_Set. simpl.
  rewrite insert_empty.
  destruct (RoundTrip _ _ _) as [resp|e]; [|done].
  unfold defer. by destruct (bad_status _).
Qed.

Lemma send_form_nil url ct : preserves sent (send_form P url None ct).
Proof.
  intros w. unfold send_form, mbind, M_bind, http_NewRequest.
  by destruct (url_Parse P url).
Qed.

(** Both upload functions build the form and then run [send_form]. *)
Lemma UploadContent_send content size presigned :
  UploadContentToPresignedUrl P content size presigned
  = let '(body, contentType, err) :=
      createMultipartForm P content size (FileName presigned) (Fields presigned) in
    match err with
    | Some e => mret (Some e)
    | None => send_form P (Url presigned) body contentType
    end.
Proof. reflexivity. Qed.

Lemma UploadFile_send filePath presigned :
  UploadFileToPresignedUrl P filePath presigned
  = (r ← os_Open filePath;
     match r with
     | Err e => mret (Some e)
     | Ok file =>
         defer (File_Close file) (
           r ← File_Stat P file;
           match r with
           | Err e => mret (Some e)
           | Ok fileInfo =>
               content ← File_Reader P file;
               let '(body, contentType, err) :=
                 createMultipartForm P (Some content) (FileInfo_Size fileInfo)
                                     (FileName presigned) (Fields presigned) in
               match err with
               | Some e => mret (Some e)
               | None => send_form P (Url presigned) body contentType
               end
           end)
     end).
Proof. reflexivity. Qed.

Lemma UploadContent_one content size presigned :
  at_most_one_request (UploadContentToPresignedUrl P content size presigned).
Proof.
  rewrite UploadContent_send.
  destruct (createMultipartForm _ _ _ _ _) as [[body ct] [e|]].
  - apply silent_one, preserves_ret.
  - apply send_form_one.
Qed.

Lemma UploadFile_one filePath presigned :
  at_most_one_request (UploadFileToPresignedUrl P filePath presigned).
Proof.
  rewrite UploadFile_send.
  apply one_bind_second; [by apply preserves_os_Open|intros [file|e]].
  - apply one_defer; [by apply preserves_File_Close|].
    apply one_bind_second; [apply preserves_File_Stat|intros [info|e]].
    + apply one_bind_second; [apply preserves_File_Reader|intros content].
      destruct (createMultipartForm _ _ _ _ _) as [[body ct] [e|]].
      * apply silent_one, preserves_ret.
      * apply send_form_one.
    + apply silent_one, preserves_ret.
  - apply silent_one, preserves_ret.
Qed.

Lemma defer_File_Close_final {X A} (f : World → X) file (rest : M A) w :
  (∀ o w, f (set_open_files o w) = f w) →
  f (final_world (defer (File_Close file) rest w)) = f (final_world (rest w)).
Proof. intros H. unfold defer, File_Close. destruct (rest w); simpl; apply H. Qed.

(** The requests of a call to either upload function. *)
Lemma UploadContent_sent content size presigned w :
  sent (final_world (UploadContentToPresignedUrl P content size presigned w))
  = match createMultipartForm P content size (FileName presigned) (Fields presigned) with
    | (Some b, ct, None) =>
        match url_Parse P (Url presigned) with
        | Some _ => sent w
        | None => sent w ++ [{| Method := "POST"; URL := Url presigned;
                                Header := {[ "Content-Type" := ct ]}; ReqBody := b |}]
        end
    | _ => sent w
    end.
Proof.
  rewrite UploadContent_send.
  destruct (createMultipartForm _ _ _ _ _) as [[[b|] ct] [e|]]; try done.
  - apply send_form_sent.
  - apply send_form_nil.
Qed.

Lemma UploadFile_sent filePath presigned w :
  sent (final_world (UploadFileToPresignedUrl P filePath presigned w))
  = match files w !! filePath with
    | None => sent w
    | Some text =>
        match os_Stat_fault P filePath with
        | Some _ => sent w
        | None =>
            match createMultipartForm P (Some (file_reader P filePath text))
                    (Z.of_nat (String.length text))
                    (FileName presigned) (Fields presigned) with
            | (Some b, ct, None) =>
                match url_Parse P (Url presigned) with
                | Some _ => sent w
                | None => sent w ++ [{| Method := "POST"; URL := Url presigned;
                                        Header := {[ "Content-Type" := ct ]};
                                        ReqBody := b |}]
                end
            | _ => sent w
            end
        end
    end.
Proof.
  rewrite UploadFile_send. unfold mbind at 1, M_bind at 1, os_Open.
  destruct (files w !! filePath) as [text|] eqn:Hfile; [|done].
  rewrite defer_File_Close_final by done.
  unfold mbind at 1, M_bind at 1, File_Stat. simpl. rewrite Hfile.
  destruct (os_Stat_fault P filePath); [done|].
  unfold mbind, M_bind, File_Reader. simpl. rewrite Hfile. simpl.
  fold (file_reader P filePath text).
  destruct (createMultipartForm _ _ _ _ _) as [[[b|] ct] [e|]]; try done.
  - by rewrite send_form_sent.
  - by rewrite send_form_nil.
Qed.

(** Where no call of [Do] issues more than one HTTP request, a computation
    that calls [Do] at most once puts at most one request on the wire. *)
Lemma one_request_on_wire {A} (m : M A) :
  (∀ before req, (length (Issued P before req) ≤ 1)%nat) →
  at_most_one_request m → at_most_one_http_request P m.
Proof.
  intros Hissued Hone w. destruct (Hone w) as [Hsent|[req Hsent]].
  - exists []. rewrite Hsent, app_nil_r. split; [done|]. simpl. lia.
  - exists [req]. split; [done|]. cbn [on_wire]. rewrite app_nil_r. apply Hissued.
Qed.

(** C4: every invocation of an API method, and of either upload function,
    calls [Do] of its HTTP client at most once, whatever happens to it: after
    a transport error, a status outside 200-299 or a body that does not
    decode, the package does not call [Do] again.  This holds in every world
    and for every client pointer, also when the call panics.  Hence, where
    no call of [Do] issues more than one HTTP request, that is where the
    client follows no redirect, an invocation puts at most one HTTP request
    on the wire.  Without that condition the bound is on the calls of [Do]
    only: the client the package builds follows redirects, and one call of
    [Do] can then issue several requests. *)
Theorem one_request_per_call :
  (∀ ut call, at_most_one_request (invoke P ut call))
  ∧ (∀ filePath presigned,
        at_most_one_request (UploadFileToPresignedUrl P filePath presigned))
  ∧ (∀ content size presigned,
        at_most_one_request (UploadContentToPresignedUrl P content size presigned))
  ∧ ((∀ before req, (length (Issued P before req) ≤ 1)%nat) →
     (∀ ut call, at_most_one_http_request P (invoke P ut call))
     ∧ (∀ filePath presigned,
           at_most_one_http_request P (UploadFileToPresignedUrl P filePath presigned))
     ∧ (∀ content size presigned,
           at_most_one_http_request P
             (UploadContentToPresignedUrl P content size presigned))).
Proof.
  split; [apply invoke_one|]. split; [apply UploadFile_one|].
  split; [apply UploadContent_one|]. intros Hissued.
  split; [|split]; intros; apply one_request_on_wire; try done.
  - apply invoke_one.
  - apply UploadFile_one.
  - apply UploadContent_one.
Qed.

(** C6: whatever path [UploadFileToPresignedUrl] takes (success, [Stat]
    error, form construction error, request error, status outside 200-299,
    or a panic), the open descriptors are the same after the call as before
    it: the descriptor [os.Open] handed out is open while the function runs
    and closed when it is over. *)
Theorem upload_closes_file filePath presigned w :
  let w' := final_world (UploadFileToPresignedUrl P filePath presigned w) in
  open_files w' = open_files w
  ∧ ∀ file w1, os_Open filePath w = Return (Ok file) w1 →
               open_files w1 !! fd file = Some filePath
               ∧ open_files w' !! fd file = None.
Proof.
  assert (Hfresh : open_files w !! fresh (dom (open_files w)) = None).
  { apply not_elem_of_dom, is_fresh. }
  assert (Hsame : open_files (final_world (UploadFileToPresignedUrl P filePath presigned w))
                  = open_files w).
  { rewrite UploadFile_send. unfold mbind at 1, M_bind at 1, os_Open.
    destruct (files w !! filePath) as [text|]; [|done].
    unfold defer, File_Close.
    match goal with |- context [match ?rest ?w1 with _ => _ end] =>
      assert (Hrest : open_files (final_world (rest w1)) = open_files w1);
      [|destruct (rest w1); simpl in *; rewrite Hrest; by apply delete_insert_id]
    end.
    match goal with |- open_files (final_world (?m _)) = _ =>
      assert (Hp : preserves open_files m); [|apply Hp] end.
    apply preserves_bind; [apply preserves_File_Stat|intros [info|e]]; [|apply preserves_ret].
    apply preserves_bind; [apply preserves_File_Reader|intros content].
    destruct (createMultipartForm _ _ _ _ _) as [[body ct] [e|]];
      [apply preserves_ret|apply send_form_files]. }
  split; [done|].
  intros file w1. unfold os_Open. destruct (files w !! filePath); [|done].
  intros [= <- <-]. cbv zeta. rewrite Hsame. simpl.
  by rewrite lookup_insert_eq.
Qed.

(** C10: a request sent by [UploadContentToPresignedUrl] carries a
    multipart body made of all the form fields of the presigned URL followed
    by one file part named "file"; with a non-nil reader and a positive
    size that part holds the first [size] bytes of the reader, exactly
    [size] of them, and with a nil reader or a size that is not positive it
    is empty.  A reader that delivers fewer than [size] bytes makes the
    function return an error without sending anything.  With enough bytes
    and a URL that parses the request is sent.  For
    [UploadFileToPresignedUrl] the file part holds the content of the file,
    and a read fault before the end of the file gives an error and no
    request. *)
Theorem multipart_upload_body content size filePath presigned w :
  (∀ req,
      sent (final_world (UploadContentToPresignedUrl P content size presigned w))
      = sent w ++ [req] →
      ∃ data, upload_body P presigned data (ReqBody req)
              ∧ (∀ src, content = Some src → 0 < size →
                        data = substring 0 (Z.to_nat size) (available src)
                        ∧ Z.of_nat (String.length data) = size)
              ∧ (content = None ∨ size ≤ 0 → data = ""))
  ∧ (∀ src, content = Some src → 0 < size →
            Z.of_nat (String.length (available src)) < size →
            ∃ e w', UploadContentToPresignedUrl P content size presigned w
                    = Return (Some e) w'
                    ∧ sent w' = sent w)
  ∧ (url_Parse P (Url presigned) = None →
     (∀ src, content = Some src → 0 < size →
             size ≤ Z.of_nat (String.length (available src))) →
     ∃ req, sent (final_world (UploadContentToPresignedUrl P content size presigned w))
            = sent w ++ [req])
  ∧ (∀ req,
        sent (final_world (UploadFileToPresignedUrl P filePath presigned w))
        = sent w ++ [req] →
        ∃ text, files w !! filePath = Some text
                ∧ upload_body P presigned text (ReqBody req))
  ∧ (∀ text n e, files w !! filePath = Some text →
                 os_Read_fault P filePath = Some (n, e) →
                 (n < String.length text)%nat →
                 ∃ e' w', UploadFileToPresignedUrl P filePath presigned w
                          = Return (Some e') w'
                          ∧ sent w' = sent w).
Proof.
  repeat split.
  - intros req. rewrite UploadContent_sent, createMultipartForm_run. cbv zeta.
    destruct content as [src|].
    + destruct (0 <? size) eqn:Hsize.
      * destruct (_ <=? _)%nat eqn:Hlen; [|by intros ?%snoc_not_nil].
        destruct (url_Parse P _); [by intros ?%snoc_not_nil|].
        intros [= <-]%app_inv_head. eexists. split; [apply written_form_body|].
        apply Nat.leb_le in Hlen. apply Z.ltb_lt in Hsize. split.
        -- intros ? [= <-] _. split; [done|].
           rewrite length_substring_0. lia.
        -- intros [|]; [done|lia].
      * destruct (url_Parse P _); [by intros ?%snoc_not_nil|].
        intros [= <-]%app_inv_head. eexists. split; [apply written_form_body|].
        apply Z.ltb_ge in Hsize. split; [intros; lia|done].
    + destruct (url_Parse P _); [by intros ?%snoc_not_nil|].
      intros [= <-]%app_inv_head. eexists. split; [apply written_form_body|].
      split; [intros; done|done].
  - intros src -> Hsize Hlen.
    rewrite UploadContent_send, createMultipartForm_run. cbv zeta.
    apply Z.ltb_lt in Hsize as ->.
    destruct (_ <=? _)%nat eqn:Hle; [apply Nat.leb_le in Hle; lia|].
    by eexists _, _.
  - intros Hurl Henough.
    rewrite UploadContent_sent, createMultipartForm_run. cbv zeta.
    destruct content as [src|]; [|rewrite Hurl; by eexists].
    destruct (0 <? size) eqn:Hsize; [|rewrite Hurl; by eexists].
    apply Z.ltb_lt in Hsize. specialize (Henough src eq_refl Hsize).
    destruct (_ <=? _)%nat eqn:Hle; [rewrite Hurl; by eexists|].
    apply Nat.leb_gt in Hle. lia.
  - intros req. rewrite UploadFile_sent.
    destruct (files w !! filePath) as [text|]; [|by intros ?%snoc_not_nil].
    destruct (os_Stat_fault P filePath); [by intros ?%snoc_not_nil|].
    rewrite createMultipartForm_run. cbv zeta.
    rewrite Nat2Z.id.
    destruct (0 <? _) eqn:Hsize.
    + destruct (_ <=? _)%nat eqn:Hlen; [|by intros ?%snoc_not_nil].
      destruct (url_Parse P _); [by intros ?%snoc_not_nil|].
      intros [= <-]%app_inv_head. exists text. split; [done|].
      apply Nat.leb_le in Hlen. rewrite file_reader_whole by done.
      apply written_form_body.
    + destruct (url_Parse P _); [by intros ?%snoc_not_nil|].
      intros [= <-]%app_inv_head. exists text. split; [done|].
      apply Z.ltb_ge in Hsize. destruct text; [|simpl in Hsize; lia].
      apply written_form_body.
  - intros text n e Hfile Hfault Hn.
    rewrite UploadFile_send. unfold mbind at 1, M_bind at 1, os_Open. rewrite Hfile.
    unfold defer, File_Close, mbind, M_bind, File_Stat, File_Reader. simpl.
    rewrite Hfile. destruct (os_Stat_fault P filePath); [by eexists _, _|].
    rewrite Hfault, createMultipartForm_run. cbv zeta. simpl.
    rewrite Nat2Z.id, length_substring_0.
    destruct (0 <? _) eqn:Hsize; [|apply Z.ltb_ge in Hsize; lia].
    destruct (_ <=? _)%nat eqn:Hle; [apply Nat.leb_le in Hle; lia|].
    by eexists _, _.
Qed.

End Uploads.

Section Api.

Context (P : Platform).

(** ** The API methods on a live client *)

Lemma live_client_inv w ut u c :
  live_client w ut = Some (u, c) →
  lookup_ptr (clients w) ut = Some u
  ∧ lookup_ptr (configs w) (config u) = Some c
  ∧ is_Some (lookup_ptr (httpClients w) (httpClient u)).
Proof.
  unfold live_client. intros H.
  destruct (lookup_ptr (clients w) ut) as [u'|] eqn:Hu; simplify_eq/=.
  destruct (lookup_ptr (configs w) (config u')) as [c'|] eqn:Hc; simplify_eq/=.
  destruct (lookup_ptr (httpClients w) (httpClient u')) as [h|] eqn:Hh; simplify_eq/=.
  rewrite Hc. eauto.
Qed.

Lemma setHeaders_run w ut u c m url b :
  lookup_ptr (clients w) ut = Some u →
  lookup_ptr (configs w) (config u) = Some c →
  setHeaders ut {| Method := m; URL := url; Header := ∅; ReqBody := b |} w
  = Return {| Method := m; URL := url; Header := api_headers u c; ReqBody := b |} w.
Proof.
  intros Hu Hc. unfold setHeaders, mbind, M_bind, deref. rewrite Hu, Hc.
  unfold api_headers, Header_Set. simpl.
  destruct (bool_decide (fePackage u ≠ "")), (bool_decide (beAdapter u ≠ "")); reflexivity.
Qed.

Lemma post_run w ut u c path data :
  live_client w ut = Some (u, c) →
  post P ut path (Some (RawBytes data)) w =
  let req := {| Method := "POST"; URL := Host c +:+ path;
                Header := api_headers u c; ReqBody := RawBytes data |} in
  match url_Parse P (URL req) with
  | Some e => Return (None, Some e) w
  | None =>
      let w1 := set_sent (sent w ++ [req]) w in
      match RoundTrip P (sent w) req with
      | Err e => Return (None, Some e) w1
      | Ok resp =>
          let w2 := set_open_bodies (S (open_bodies w)) w1 in
          if bad_status (StatusCode resp)
          then Return (None, Some (status_error resp)) w2
          else Return (Some resp, None) w2
      end
  end.
Proof.
  intros H. apply live_client_inv in H as (Hu & Hc & [h Hh]).
  unfold post, mbind, M_bind, deref. rewrite Hu, Hc. simpl.
  unfold http_NewRequest.
  destruct (url_Parse P (Host c +:+ path)) as [e|]; [done|].
  rewrite (setHeaders_run _ _ _ _ _ _ _ Hu Hc).
  unfold http_Client_Do, mbind, M_bind, deref. rewrite Hh.
  unfold http_send, http_MethodPost.
  destruct (RoundTrip P (sent w) _) as [resp|e]; [|done].
  destruct (bad_status (StatusCode resp)); reflexivity.
Qed.

(** The request structures of the source marshal to the documents of the
    wire contract; the two methods without a request structure send the
    text of the empty object. *)
Lemma request_document_marshal :
  (∀ fileKeys, json_Marshal P {| FileKeys := fileKeys |}
               = Ok (compact P (request_document (CallDeleteFiles fileKeys))))
  ∧ (∀ limit offset, json_Marshal P {| Limit := limit; Offset := offset |}
                     = Ok (compact P (request_document (CallListFiles limit offset))))
  ∧ (∀ updates, json_Marshal P {| Updates := updates |}
                = Ok (compact P (request_document (CallRenameFiles updates))))
  ∧ (∀ fileKey expiresIn,
        json_Marshal P {| RequestFileAccess_FileKey := fileKey; ExpiresIn := expiresIn |}
        = Ok (compact P (request_document (CallGetPresignedUrl fileKey expiresIn))))
  ∧ (∀ files acl,
        json_Marshal P {| Files := files; ACL := acl; Metadata := None;
                          ContentDisposition := "" |}
        = Ok (compact P (request_document (CallGetPresignedUploadUrl files acl))))
  ∧ compact P (request_document CallGetUsageInfo) = "{}"
  ∧ compact P (request_document CallGetAppInfo) = "{}".
Proof. repeat split. Qed.

(** On a live client every method is one exchange: it marshals its request
    structure into [request_document], posts it to [endpoint], and decodes
    the answer with [decode_result]. *)
Lemma invoke_exchange w ut u c call :
  live_client w ut = Some (u, c) →
  invoke P ut call w = exchange P u c call w.
Proof.
  intros H.
  destruct call; unfold invoke, exchange, DeleteFiles, ListFiles, RenameFiles,
    GetUsageInfo, GetPresignedUrl, GetAppInfo, GetPresignedUploadUrl;
    unfold json_Marshal, bytes_NewBuffer, mbind, M_bind;
    rewrite (post_run _ _ _ _ _ _ H); unfold api_request; cbn [URL endpoint].
  all: try match goal with
       | |- context [compact P (to_json ?x)] =>
           match goal with
           | |- context [request_document ?k] =>
               change (to_json x) with (request_document k)
           end
       end.
  all: try change "{}" with (compact P (request_document CallGetUsageInfo)).
  all: destruct (url_Parse P _) as [e|]; [done|].
  all: cbv zeta.
  all: destruct (RoundTrip P (sent w) _) as [resp|e]; [|done].
  all: destruct (bad_status (StatusCode resp)); [done|].
  all: unfold deref_Response, defer, Body_Close, decode_result; simpl.
  all: match goal with
       | |- context [match ?d with Ok _ => _ | Err _ => _ end] => destruct d
       end; done.
Qed.

(** C1: on a live client every API method returns; it returns an error
    exactly when the HTTP call fails (the request cannot be built or the
    transport reports an error), or the status of the answer is outside
    200-299, or the body of the answer does not decode.  The error returned
    is the very error of the failing step: the one net/http or the decoder
    produced, or for a rejected status the error carrying the status and
    the body.  Without an error the method returns what the body decodes
    to (for [GetPresignedUrl], the [ufsUrl] field of it). *)
Theorem api_error_iff w ut u c call :
  live_client w ut = Some (u, c) →
  ∃ v err w',
    invoke P ut call w = Return (v, err) w'
    ∧ (∀ e, err = Some e ↔ http_call_fails P w u c call e
                           ∨ status_rejected P w u c call e
                           ∨ decode_fails P w u c call e)
    ∧ (err = None → ∃ resp, answered P w u c call resp
                            ∧ decode_result P call (Body resp) = Ok v).
Proof.
  intros H. rewrite (invoke_exchange _ _ _ _ _ H).
  unfold exchange, http_call_fails, status_rejected, decode_fails, answered. cbv zeta.
  destruct (url_Parse P _) as [e0|] eqn:Hurl.
  { eexists _, _, _. split; [done|]. split; [|done].
    intros e. split; [intros [= <-]; by left; left|].
    intros [[?|[? _]]|[(r & [? _] & _)|(r & [? _] & _)]]; congruence. }
  destruct (RoundTrip P _ _) as [resp|e0] eqn:Hdo.
  2:{ eexists _, _, _. split; [done|]. split; [|done].
      intros e. split; [intros [= <-]; by left; right|].
      intros [[?|[_ ?]]|[(r & [_ ?] & _)|(r & [_ ?] & _)]]; congruence. }
  destruct (bad_status _) eqn:Hst.
  { apply bad_status_true in Hst.
    eexists _, _, _. split; [done|]. split; [|done].
    intros e. split.
    - intros [= <-]. right; left. by exists resp.
    - intros [[|[]]|[(r & [_ [= <-]] & _ & ->)|(r & [_ [= <-]] & ? & _)]]; try done. lia. }
  apply bad_status_false in Hst.
  destruct (decode_result P call (Body resp)) as [v|e0] eqn:Hdec.
  - eexists _, _, _. split; [done|]. split; [|by exists resp].
    intros e. split; [done|].
    intros [[|[]]|[(r & [_ [= <-]] & ? & _)|(r & [_ [= <-]] & _ & ?)]]; try done; [lia|congruence].
  - eexists _, _, _. split; [done|]. split; [|done].
    intros e. split.
    + intros [= <-]. right; right. by exists resp.
    + intros [[|[]]|[(r & [_ [= <-]] & ? & _)|(r & [_ [= <-]] & _ & ?)]]; try done; [lia|congruence].
Qed.

Lemma exchange_sent u c call w :
  sent (final_world (exchange P u c call w))
  = match url_Parse P (URL (api_request P u c call)) with
    | Some _ => sent w
    | None => sent w ++ [api_request P u c call]
    end.
Proof.
  unfold exchange. cbv zeta. destruct (url_Parse P _); [done|].
  destruct (RoundTrip P _ _) as [resp|]; [|done].
  by destruct (bad_status _).
Qed.

(** C2: on a live client, a method whose URL parses sends exactly one
    request: a POST to the configured host followed by the fixed endpoint of
    the method, whose body is the JSON text of the request document of the
    method ([request_document], which is what [json.Marshal] yields on the
    request structure, and [{}] for the two methods without one).  When the
    answer has a status in 200-299 the method returns what its body decodes
    to in the matching result structure, or the decoding error. *)
Theorem api_wire_contract w ut u c call :
  live_client w ut = Some (u, c) →
  let w' := final_world (invoke P ut call w) in
  match url_Parse P (Host c +:+ endpoint call) with
  | Some _ => sent w' = sent w
  | None =>
      ∃ req,
        sent w' = sent w ++ [req]
        ∧ Method req = "POST"
        ∧ URL req = Host c +:+ endpoint call
        ∧ ReqBody req = RawBytes (compact P (request_document call))
        ∧ ∀ resp,
            RoundTrip P (sent w) req = Ok resp →
            200 ≤ StatusCode resp ≤ 299 →
            returned (invoke P ut call w)
            = Some match decode_result P call (Body resp) with
                   | Ok v => (v, None)
                   | Err e => (zero_value call, Some e)
                   end
  end.
Proof.
  intros H. cbv zeta. rewrite (invoke_exchange _ _ _ _ _ H), exchange_sent.
  cbn [URL api_request]. destruct (url_Parse P _) eqn:Hurl; [done|].
  eexists. split; [done|]. repeat split.
  intros resp Hdo Hst%bad_status_false. unfold exchange. cbv zeta.
  cbn [URL api_request]. by rewrite Hurl, Hdo, Hst.
Qed.

Lemma api_headers_carried u c call : carries_headers u c (api_request P u c call).
Proof.
  unfold carries_headers, api_request, api_headers. cbn [Header].
  repeat case_bool_decide; simplify_map_eq; done.
Qed.

(** C3: every request a method of a live client hands to the transport
    carries [Content-Type: application/json], the API key and the version
    of the configuration of the client, and the [x-uploadthing-fe-package]
    and [x-uploadthing-be-adapter] headers exactly when the field of the
    client is not empty. *)
Theorem api_headers_fixed w ut u c call :
  live_client w ut = Some (u, c) →
  ∃ new, sent (final_world (invoke P ut call w)) = sent w ++ new
         ∧ Forall (carries_headers u c) new.
Proof.
  intros H. rewrite (invoke_exchange _ _ _ _ _ H), exchange_sent.
  destruct (url_Parse P _).
  - exists []. by rewrite app_nil_r.
  - eexists. split; [done|].
    constructor; [apply api_headers_carried|constructor].
Qed.

(** C7: two runs of the same call, on two clients with the same
    configuration, in two worlds that may differ in everything else (the
    requests made before, the environment, the files), both return, and
    return the same value and the same error, as soon as the provider
    answers the request in the same way in both. *)
Theorem api_deterministic w1 w2 ut1 ut2 u1 u2 c call :
  live_client w1 ut1 = Some (u1, c) →
  live_client w2 ut2 = Some (u2, c) →
  fePackage u1 = fePackage u2 →
  beAdapter u1 = beAdapter u2 →
  RoundTrip P (sent w1) (api_request P u1 c call)
  = RoundTrip P (sent w2) (api_request P u2 c call) →
  ∃ r, returned (invoke P ut1 call w1) = Some r
       ∧ returned (invoke P ut2 call w2) = Some r.
Proof.
  intros H1 H2 Hfe Hbe.
  rewrite (invoke_exchange _ _ _ _ _ H1), (invoke_exchange _ _ _ _ _ H2).
  assert (Hreq : api_request P u2 c call = api_request P u1 c call).
  { unfold api_request, api_headers. by rewrite Hfe, Hbe. }
  rewrite Hreq. intros Hdo. unfold exchange. cbv zeta. rewrite Hreq, Hdo.
  destruct (url_Parse P _); [by eexists|].
  destruct (RoundTrip P (sent w2) _) as [resp|]; [|by eexists].
  destruct (bad_status _); by eexists.
Qed.

(** C8: on a live client, a pointer-returning method returns a non-nil
    result exactly when it returns a nil error; [GetPresignedUrl] returns
    the empty string with every error, and without an error the [ufsUrl]
    field of the decoded answer and nothing of its [url] field. *)
Theorem api_result_xor_error w ut u c call :
  live_client w ut = Some (u, c) →
  ∃ v err w',
    invoke P ut call w = Return (v, err) w'
    ∧ (∀ non_nil, result_pointer v = Some non_nil → (non_nil = true ↔ err = None))
    ∧ (∀ url, v = PresignedUrlValue url →
              (err ≠ None → url = "")
              ∧ (err = None →
                 ∃ resp r, answered P w u c call resp
                           ∧ Decode_RequestFileAccessResponse P (Body resp) = Ok r
                           ∧ url = UfsUrl r)).
Proof.
  intros H. rewrite (invoke_exchange _ _ _ _ _ H).
  unfold exchange, answered. cbv zeta.
  destruct (url_Parse P _) as [e0|] eqn:Hurl.
  { eexists _, _, _. split; [done|]. destruct call; split; naive_solver. }
  destruct (RoundTrip P _ _) as [resp|e0] eqn:Hdo.
  2:{ eexists _, _, _. split; [done|]. destruct call; split; naive_solver. }
  destruct (bad_status _) eqn:Hst.
  { eexists _, _, _. split; [done|]. destruct call; split; naive_solver. }
  destruct call; cbn [decode_result];
    [> destruct (Decode_DeleteFilesResponse P _) eqn:Hdec
     | destruct (Decode_ListFilesResponse P _) eqn:Hdec
     | destruct (Decode_RenameFilesResponse P _) eqn:Hdec
     | destruct (Decode_UsageInfoResponse P _) eqn:Hdec
     | destruct (Decode_RequestFileAccessResponse P _) eqn:Hdec
     | destruct (Decode_GetAppInfoResponse P _) eqn:Hdec
     | destruct (Decode_UploadFilesResponse P _) eqn:Hdec ].
  all: eexists _, _, _; (split; [done|]); simpl.
  all: split; [intros non_nil Hp|intros url Hv]; simplify_eq.
  all: try done.
  - split; [done|]. intros _. by eexists resp, _.
Qed.

Lemma NewUtApi_run w :
  NewUtApi P w
  = match godotenv_Load P ".env" w with
    | Return (Some e) w1 =>
        Return (nil, Some e)
          (set_stdout (stdout w1 ++ ["Failed to load environment variables from .env file"
                                     +:+ newline]) w1)
    | Return None w1 =>
        let key := default "" (environ w1 !! "UPLOADTHING_SECRET") in
        if bool_decide (key = "")
        then Return (nil, Some (Errorf "UPLOADTHING_SECRET is not set")) w1
        else
          let lc := fresh (dom (configs w1)) in
          let lh := fresh (dom (httpClients w1)) in
          let lu := fresh (dom (clients w1)) in
          Return (addr lu, None)
            (set_clients
               (<[lu := {| config := addr lc; httpClient := addr lh; fePackage := "";
                           beAdapter := "github.com/IXackerr/utapi-go" |}]> (clients w1))
               (set_httpClients (<[lh := http_Client_zero]> (httpClients w1))
                  (set_configs
                     (<[lc := {| Host := "https://api.uploadthing.com"; ApiKey := key;
                                 Version := "7.6.0" |}]> (configs w1)) w1)))
    | Panic msg w1 => Panic msg w1
    end.
Proof.
  unfold NewUtApi, getUploadthingConfig, handleSetEnvironmentVariables,
    setEnvironmentVariablesFromFile, validateEnvironmentVariables.
  unfold mbind, M_bind.
  destruct (godotenv_Load P ".env" w) as [[e|] w1|]; [reflexivity| |reflexivity].
  cbv beta iota zeta delta [validate_keys default from_option id os_Getenv mbind M_bind mret M_ret].
  destruct (bool_decide (_ = "")); reflexivity.
Qed.

(** C5: no API method writes to the Go heap: the client objects, their
    configurations and their HTTP clients are the same after a call as
    before it, on every client and in every world.  Hence a client built by
    [NewUtApi] shows the same fields and the same configuration after any
    sequence of calls as right after its construction. *)
Theorem client_configuration_immutable :
  (∀ ut call w, heap_of (final_world (invoke P ut call w)) = heap_of w)
  ∧ (∀ w0 ut w1 calls,
        NewUtApi P w0 = Return (ut, None) w1 →
        ∃ u c, live_client w1 ut = Some (u, c)
               ∧ live_client (final_world (run_calls P ut calls w1)) ut = Some (u, c)).
Proof.
  split; [intros; apply invoke_heap|].
  intros w0 ut w1 calls Hnew.
  rewrite (live_client_heap w1 (final_world (run_calls P ut calls w1)) ut)
    by apply run_calls_heap.
  revert Hnew. rewrite NewUtApi_run.
  destruct (godotenv_Load P ".env" w0) as [[e|] w'|]; [intros [=]| |intros [=]].
  cbv zeta. case_bool_decide; [intros [=]|].
  intros [= <- <-]. eexists _, _. unfold live_client. simpl.
  by repeat (rewrite lookup_insert_eq; simpl).
Qed.

(** C9: [NewUtApi] returns nil and the error of [godotenv.Load] when the
    [.env] file cannot be loaded, and nil and an error when
    [UPLOADTHING_SECRET] is empty once the file is loaded; without a [.env]
    file it fails whatever the process environment holds.  Otherwise it
    succeeds, and the client it returns has the host
    [https://api.uploadthing.com], the version [7.6.0] and the value of
    [UPLOADTHING_SECRET] as its API key. *)
Theorem NewUtApi_contract w :
  (∀ e w1, godotenv_Load P ".env" w = Return (Some e) w1 →
           ∃ w', NewUtApi P w = Return (nil, Some e) w')
  ∧ (∀ w1, godotenv_Load P ".env" w = Return None w1 →
           default "" (environ w1 !! "UPLOADTHING_SECRET") = "" →
           NewUtApi P w = Return (nil, Some (Errorf "UPLOADTHING_SECRET is not set")) w1)
  ∧ (files w !! ".env" = None → ∃ e w', NewUtApi P w = Return (nil, Some e) w')
  ∧ (∀ w1, godotenv_Load P ".env" w = Return None w1 →
           default "" (environ w1 !! "UPLOADTHING_SECRET") ≠ "" →
           ∃ ut w', NewUtApi P w = Return (addr ut, None) w')
  ∧ (∀ ut w', NewUtApi P w = Return (ut, None) w' →
              ∃ u c, live_client w' ut = Some (u, c)
                     ∧ Host c = "https://api.uploadthing.com"
                     ∧ Version c = "7.6.0"
                     ∧ ApiKey c = default "" (environ w' !! "UPLOADTHING_SECRET")
                     ∧ ApiKey c ≠ "").
Proof.
  rewrite NewUtApi_run. repeat split.
  - intros e w1 ->. by eexists.
  - intros w1 -> Hkey. cbv zeta. by rewrite bool_decide_eq_true_2.
  - intros Hfile. unfold godotenv_Load. rewrite Hfile. by eexists _, _.
  - intros w1 -> Hkey. cbv zeta. rewrite bool_decide_eq_false_2 by done. by eexists _, _.
  - intros ut w'.
    destruct (godotenv_Load P ".env" w) as [[e|] w1|]; [intros [=]| |intros [=]].
    cbv zeta. case_bool_decide as Hkey; [intros [=]|].
    intros [= <- <-]. eexists _, _. unfold live_client. simpl.
    by repeat (rewrite lookup_insert_eq; simpl).
Qed.

End Api.

(** * The theorems at work on the small platform *)

Lemma api_error_iff_witness :
  live_client demo_client_world demo_ptr = Some (demo_client, demo_config)
  ∧ ∃ v err w',
      invoke demo_platform demo_ptr demo_call demo_client_world = Return (v, err) w'
      ∧ (∀ e, err = Some e
              ↔ http_call_fails demo_platform demo_client_world demo_client
                  demo_config demo_call e
                ∨ status_rejected demo_platform demo_client_world demo_client
                    demo_config demo_call e
                ∨ decode_fails demo_platform demo_client_world demo_client
                    demo_config demo_call e)
      ∧ (err = None →
         ∃ resp, answered demo_platform demo_client_world demo_client
                   demo_config demo_call resp
                 ∧ decode_result demo_platform demo_call (Body resp) = Ok v).
Proof.
  split; [vm_compute; reflexivity|].
  apply (api_error_iff demo_platform demo_client_world demo_ptr demo_client
           demo_config demo_call).
  vm_compute; reflexivity.
Defined.

Lemma api_wire_contract_witness :
  live_client demo_client_world demo_ptr = Some (demo_client, demo_config)
  ∧ ∃ req,
      sent (final_world (invoke demo_platform demo_ptr demo_call demo_client_world))
      = sent demo_client_world ++ [req]
      ∧ Method req = "POST"
      ∧ URL req = "https://api.uploadthing.com/v6/deleteFiles"
      ∧ ReqBody req = RawBytes (compact demo_platform (request_document demo_call))
      ∧ ∀ resp,
          RoundTrip demo_platform (sent demo_client_world) req = Ok resp →
          200 ≤ StatusCode resp ≤ 299 →
          returned (invoke demo_platform demo_ptr demo_call demo_client_world)
          = Some match decode_result demo_platform demo_call (Body resp) with
                 | Ok v => (v, None)
                 | Err e => (zero_value demo_call, Some e)
                 end.
Proof.
  split; [vm_compute; reflexivity|].
  apply (api_wire_contract demo_platform demo_client_world demo_ptr demo_client
           demo_config demo_call).
  vm_compute; reflexivity.
Defined.

Lemma api_headers_fixed_witness :
  live_client demo_client_world demo_ptr = Some (demo_client, demo_config)
  ∧ ∃ new,
      sent (final_world (invoke demo_platform demo_ptr demo_call demo_client_world))
      = sent demo_client_world ++ new
      ∧ Forall (carries_headers demo_client demo_config) new.
Proof.
  split; [vm_compute; reflexivity|].
  apply (api_headers_fixed demo_platform demo_client_world demo_ptr demo_client
           demo_config demo_call).
  vm_compute; reflexivity.
Defined.

Lemma api_deterministic_witness :
  live_client demo_client_world demo_ptr = Some (demo_client, demo_config)
  ∧ live_client demo_later_world demo_ptr = Some (demo_client, demo_config)
  ∧ sent demo_client_world ≠ sent demo_later_world
  ∧ ∃ r, returned (invoke demo_platform demo_ptr demo_call demo_client_world) = Some r
         ∧ returned (invoke demo_platform demo_ptr demo_call demo_later_world) = Some r.
Proof.
  split; [vm_compute; reflexivity|].
  split; [vm_compute; reflexivity|].
  split; [vm_compute; discriminate|].
  apply (api_deterministic demo_platform demo_client_world demo_later_world
           demo_ptr demo_ptr demo_client demo_client demo_config demo_call);
    vm_compute; reflexivity.
Defined.

Lemma api_result_xor_error_witness :
  live_client demo_client_world demo_ptr = Some (demo_client, demo_config)
  ∧ ∃ v err w',
      invoke demo_platform demo_ptr demo_call demo_client_world = Return (v, err) w'
      ∧ (∀ non_nil, result_pointer v = Some non_nil → (non_nil = true ↔ err = None))
      ∧ (∀ url, v = PresignedUrlValue url →
                (err ≠ None → url = "")
                ∧ (err = None →
                   ∃ resp r, answered demo_platform demo_client_world demo_client
                               demo_config demo_call resp
                             ∧ Decode_RequestFileAccessResponse demo_platform (Body resp)
                               = Ok r
                             ∧ url = UfsUrl r)).
Proof.
  split; [vm_compute; reflexivity|].
  apply (api_result_xor_error demo_platform demo_client_world demo_ptr demo_client
           demo_config demo_call).
  vm_compute; reflexivity.
Defined.

Lemma one_request_per_call_witness :
  (∀ before req, (length (Issued demo_platform before req) ≤ 1)%nat)
  ∧ ∃ new,
      sent (final_world (invoke demo_platform demo_ptr demo_call demo_client_world))
      = sent demo_client_world ++ new
      ∧ (length (on_wire demo_platform (sent demo_client_world) new) ≤ 1)%nat.
Proof.
  split; [intros before req; simpl; lia|].
  apply (proj1 (proj2 (proj2 (proj2 (one_request_per_call demo_platform)))
                  (λ before req, le_n 1)) demo_ptr demo_call demo_client_world).
Defined.

(** On a platform whose provider redirects, one call of [DeleteFiles] calls
    [Do] once and the client issues two HTTP requests: the request of the
    call and the one to the new location. *)
Lemma one_call_two_http_requests :
  ∃ req,
    sent (final_world (invoke redirecting_platform demo_ptr demo_call demo_client_world))
    = sent demo_client_world ++ [req]
    ∧ on_wire redirecting_platform (sent demo_client_world) [req]
      = [req; redirected "https://eu.api.uploadthing.com/v6/deleteFiles" req]
    ∧ ¬ at_most_one_http_request redirecting_platform
          (invoke redirecting_platform demo_ptr demo_call).
Proof.
  assert (Hnew : sent (final_world (invoke redirecting_platform demo_ptr demo_call
                                      demo_client_world))
                 = sent demo_client_world
                   ++ [api_request redirecting_platform demo_client demo_config
                         demo_call])
    by (vm_compute; reflexivity).
  eexists. split; [exact Hnew|]. split; [reflexivity|].
  intros Hone. destruct (Hone demo_client_world) as (new & Hsent & Hwire).
  rewrite Hnew in Hsent. apply app_inv_head in Hsent. subst new.
  cbn [on_wire redirecting_platform with_redirect Issued] in Hwire.
  simpl in Hwire. lia.
Qed.

Lemma client_configuration_immutable_witness :
  NewUtApi demo_platform demo_world = Return (demo_ptr, None) demo_client_world
  ∧ ∃ u c, live_client demo_client_world demo_ptr = Some (u, c)
           ∧ live_client
               (final_world (run_calls demo_platform demo_ptr demo_calls demo_client_world))
               demo_ptr
             = Some (u, c).
Proof.
  split; [vm_compute; reflexivity|].
  apply (proj2 (client_configuration_immutable demo_platform) demo_world demo_ptr
           demo_client_world demo_calls).
  vm_compute; reflexivity.
Defined.

Lemma upload_closes_file_witness :
  os_Open "notes.txt" demo_upload_world
  = Return (Ok demo_file) (set_open_files {[ 1%positive := "notes.txt" ]} demo_upload_world)
  ∧ open_files (set_open_files {[ 1%positive := "notes.txt" ]} demo_upload_world)
    !! fd demo_file = Some "notes.txt"
  ∧ open_files (final_world (UploadFileToPresignedUrl demo_platform "notes.txt"
                               demo_presigned demo_upload_world))
    !! fd demo_file = None.
Proof.
  split; [vm_compute; reflexivity|].
  apply (proj2 (upload_closes_file demo_platform "notes.txt" demo_presigned
                  demo_upload_world) demo_file).
  vm_compute; reflexivity.
Defined.

Lemma NewUtApi_contract_witness :
  (files demo_world_without_dotenv !! ".env" = None
   ∧ environ demo_world_without_dotenv !! "UPLOADTHING_SECRET" = Some "sk_live_demo"
   ∧ ∃ e w', NewUtApi demo_platform demo_world_without_dotenv = Return (nil, Some e) w')
  ∧ (godotenv_Load demo_platform ".env" demo_world_without_dotenv
     = Return (Some (no_such_file "open" ".env")) demo_world_without_dotenv
     ∧ ∃ w', NewUtApi demo_platform demo_world_without_dotenv
             = Return (nil, Some (no_such_file "open" ".env")) w')
  ∧ (godotenv_Load demo_platform ".env" demo_world_empty_secret
     = Return None demo_loaded_empty_secret
     ∧ default "" (environ demo_loaded_empty_secret !! "UPLOADTHING_SECRET") = ""
     ∧ NewUtApi demo_platform demo_world_empty_secret
       = Return (nil, Some (Errorf "UPLOADTHING_SECRET is not set"))
                demo_loaded_empty_secret)
  ∧ (godotenv_Load demo_platform ".env" demo_world = Return None demo_loaded_world
     ∧ default "" (environ demo_loaded_world !! "UPLOADTHING_SECRET") ≠ ""
     ∧ ∃ ut w', NewUtApi demo_platform demo_world = Return (addr ut, None) w')
  ∧ (NewUtApi demo_platform demo_world = Return (demo_ptr, None) demo_client_world
     ∧ ∃ u c, live_client demo_client_world demo_ptr = Some (u, c)
              ∧ Host c = "https://api.uploadthing.com"
              ∧ Version c = "7.6.0"
              ∧ ApiKey c = default "" (environ demo_client_world !! "UPLOADTHING_SECRET")
              ∧ ApiKey c ≠ "").
Proof.
  pose proof (NewUtApi_contract demo_platform demo_world_without_dotenv)
    as (Hload & _ & Hmissing & _).
  pose proof (NewUtApi_contract demo_platform demo_world_empty_secret)
    as (_ & Hempty & _).
  pose proof (NewUtApi_contract demo_platform demo_world)
    as (_ & _ & _ & Hsuccess & Hclient).
  split; [split; [vm_compute; reflexivity|split; [vm_compute; reflexivity|]]|].
  { apply Hmissing. vm_compute; reflexivity. }
  split; [split; [vm_compute; reflexivity|]|].
  { apply (Hload _ demo_world_without_dotenv). vm_compute; reflexivity. }
  split; [split; [vm_compute; reflexivity|split; [vm_compute; reflexivity|]]|].
  { apply Hempty; vm_compute; reflexivity. }
  split; [split; [vm_compute; reflexivity|split; [vm_compute; discriminate|]]|].
  { apply (Hsuccess demo_loaded_world); [vm_compute; reflexivity|vm_compute; discriminate]. }
  split; [vm_compute; reflexivity|].
  apply Hclient. vm_compute; reflexivity.
Defined.

Lemma multipart_upload_body_witness :
  (sent (final_world (UploadContentToPresignedUrl demo_platform (Some demo_content) 5
                        demo_presigned demo_upload_world))
   = sent demo_upload_world ++ [demo_upload_request]
   ∧ ∃ data, upload_body demo_platform demo_presigned data (ReqBody demo_upload_request)
             ∧ (∀ src, Some demo_content = Some src → 0 < 5 →
                       data = substring 0 (Z.to_nat 5) (available src)
                       ∧ Z.of_nat (String.length data) = 5)
             ∧ (Some demo_content = None ∨ 5 ≤ 0 → data = ""))
  ∧ (0 < 50
     ∧ Z.of_nat (String.length (available demo_content)) < 50
     ∧ ∃ e w', UploadContentToPresignedUrl demo_platform (Some demo_content) 50
                 demo_presigned demo_upload_world
               = Return (Some e) w'
               ∧ sent w' = sent demo_upload_world)
  ∧ (url_Parse demo_platform (Url demo_presigned) = None
     ∧ ∃ req, sent (final_world (UploadContentToPresignedUrl demo_platform
                                   (Some demo_content) 5 demo_presigned demo_upload_world))
              = sent demo_upload_world ++ [req])
  ∧ (sent (final_world (UploadFileToPresignedUrl demo_platform "notes.txt"
                          demo_presigned demo_upload_world))
     = sent demo_upload_world ++ [demo_upload_request]
     ∧ ∃ text, files demo_upload_world !! "notes.txt" = Some text
               ∧ upload_body demo_platform demo_presigned text
                   (ReqBody demo_upload_request))
  ∧ (files demo_upload_world !! "notes.txt" = Some "hello"
     ∧ os_Read_fault demo_faulty_platform "notes.txt" = Some (2%nat, read_error)
     ∧ (2 < String.length "hello")%nat
     ∧ ∃ e' w', UploadFileToPresignedUrl demo_faulty_platform "notes.txt"
                  demo_presigned demo_upload_world
                = Return (Some e') w'
                ∧ sent w' = sent demo_upload_world).
Proof.
  pose proof (multipart_upload_body demo_platform (Some demo_content) 5 "notes.txt"
                demo_presigned demo_upload_world) as (Hbody & _ & Hsent & Hfile & _).
  pose proof (multipart_upload_body demo_platform (Some demo_content) 50 "notes.txt"
                demo_presigned demo_upload_world) as (_ & Hshort & _).
  pose proof (multipart_upload_body demo_faulty_platform None 0 "notes.txt"
                demo_presigned demo_upload_world) as (_ & _ & _ & _ & Hfault).
  split; [split; [vm_compute; reflexivity|]|].
  { apply Hbody. vm_compute; reflexivity. }
  split; [split; [reflexivity|split; [reflexivity|]]|].
  { apply (Hshort demo_content); reflexivity. }
  split; [split; [reflexivity|]|].
  { apply Hsent; [reflexivity|]. intros src [= <-] _. vm_compute. discriminate. }
  split; [split; [vm_compute; reflexivity|]|].
  { apply Hfile. vm_compute; reflexivity. }
  split; [vm_compute; reflexivity|]. split; [reflexivity|]. split; [vm_compute; lia|].
  apply (Hfault "hello" 2%nat read_error); [vm_compute; reflexivity|reflexivity|].
  vm_compute; lia.
Defined.

(** ** The bodies a few calls send on the small platform *)

Example DeleteFiles_nil_body :
  map ReqBody (sent (final_world (invoke demo_platform demo_ptr (CallDeleteFiles None)
                                    demo_client_world)))
  = [RawBytes ("{" +:+ dquote +:+ "fileKeys" +:+ dquote +:+ ":null}")].
Proof. vm_compute. reflexivity. Qed.

Example DeleteFiles_body :
  map ReqBody (sent (final_world (invoke demo_platform demo_ptr
                                    (CallDeleteFiles (Some ["a"; "b"])) demo_client_world)))
  = [RawBytes ("{" +:+ dquote +:+ "fileKeys" +:+ dquote +:+ ":["
               +:+ dquote +:+ "a" +:+ dquote +:+ ","
               +:+ dquote +:+ "b" +:+ dquote +:+ "]}")].
Proof. vm_compute. reflexivity. Qed.

Example GetPresignedUrl_omits_zero_expiry :
  request_document (CallGetPresignedUrl "file-key" 0)
  = JObject [("fileKey", JString "file-key")].
Proof. reflexivity. Qed.

Example ListFiles_body :
  compact demo_platform (request_document (CallListFiles 100 0))
  = "{" +:+ dquote +:+ "limit" +:+ dquote +:+ ":100,"
    +:+ dquote +:+ "offset" +:+ dquote +:+ ":0}".
Proof. vm_compute. reflexivity. Qed.

Example status_error_text :
  status_error {| StatusCode := 404;
                  Body := {| available := "not found"; failure := None |} |}
  = Errorf "UploadThing: error 404: not found".
Proof. vm_compute. reflexivity. Qed.

(** * Further properties of the package *)

Section Environment.

Context (P : Platform).

(** ** Configuration *)

Lemma validate_keys_run keys w :
  ∃ err, validate_keys keys w = Return err w
    ∧ (err = None ↔ Forall (λ key, default "" (environ w !! key) ≠ "") keys)
    ∧ ∀ e, err = Some e →
        ∃ before key after,
          keys = before ++ key :: after
          ∧ Forall (λ key, default "" (environ w !! key) ≠ "") before
          ∧ default "" (environ w !! key) = ""
          ∧ e = Errorf (key +:+ " is not set").
Proof.
  induction keys as [|key rest IH].
  - exists None. repeat split; [constructor|intros e [=]].
  - cbn [validate_keys]. unfold mbind, M_bind, os_Getenv.
    case_bool_decide as Hkey.
    + eexists. split; [done|]. split.
      * split; [done|]. by intros [? _]%Forall_cons.
      * intros e [= <-]. exists [], key, rest. by repeat split.
    + destruct IH as (err & -> & Hnone & Hsome). exists err. split; [done|]. split.
      * rewrite Hnone. split; [by constructor|by intros [_ ?]%Forall_cons].
      * intros e He. destruct (Hsome e He) as (before & k & after & -> & ? & ? & ->).
        exists (key :: before), k, after. repeat split; [by constructor|done].
Qed.

(** X1: [validateEnvironmentVariables] never changes the world; it returns
    nil exactly when every key of the list has a non-empty value in the
    environment (so also for the empty list and the nil slice), and
    otherwise its error names the first key of the list that is unset or
    empty. *)
Theorem validateEnvironmentVariables_first_missing keys w :
  ∃ err, validateEnvironmentVariables keys w = Return err w
    ∧ (err = None ↔ Forall (λ key, default "" (environ w !! key) ≠ "") (default [] keys))
    ∧ ∀ e, err = Some e →
        ∃ before key after,
          keys = Some (before ++ key :: after)
          ∧ Forall (λ key, default "" (environ w !! key) ≠ "") before
          ∧ default "" (environ w !! key) = ""
          ∧ e = Errorf (key +:+ " is not set").
Proof.
  unfold validateEnvironmentVariables.
  destruct (validate_keys_run (default [] keys) w) as (err & Hrun & Hnone & Hsome).
  exists err. repeat split; try apply Hnone; [done|].
  intros e He. destruct (Hsome e He) as (before & key & after & Hk & ?).
  exists before, key, after. split; [|done].
  destruct keys as [l|]; simpl in Hk; [by rewrite Hk|by destruct before].
Qed.


(** X4: after a successful [NewUtApi], a second call succeeds as well; it
    returns another client, with the same configuration values, and the
    first client stays as it was. *)
Theorem NewUtApi_twice w ut1 w1 :
  NewUtApi P w = Return (ut1, None) w1 →
  ∃ ut2 w2 u1 u2 c,
    NewUtApi P w1 = Return (ut2, None) w2
    ∧ ut2 ≠ ut1
    ∧ live_client w1 ut1 = Some (u1, c)
    ∧ live_client w2 ut1 = Some (u1, c)
    ∧ live_client w2 ut2 = Some (u2, c).
Proof.
  rewrite !NewUtApi_run. unfold godotenv_Load.
  destruct (files w !! ".env") as [text|] eqn:Hfile; [|intros [=]].
  destruct (godotenv_Parse P text) as [envMap|e0] eqn:Hparse; [|intros [=]].
  cbv zeta. case_bool_decide as Hkey; [intros [=]|].
  intros [= <- <-]. simpl. rewrite Hfile, Hparse.
  rewrite <- (assoc_L (∪)), (idemp_L (∪)). simpl.
  rewrite bool_decide_eq_false_2 by done.
  eexists _, _, _, _, _. split; [done|].
  assert (Hne : ∀ {A} (m : gmap loc A) x, fresh (dom (<[fresh (dom m) := x]> m)) ≠ fresh (dom m)).
  { intros A m x Heq. pose proof (is_fresh (dom (<[fresh (dom m) := x]> m))) as Hf.
    rewrite Heq in Hf. apply Hf. rewrite dom_insert_L. set_solver. }
  split; [intros [=]; by eapply Hne|].
  unfold live_client. simpl.
  repeat (rewrite ?lookup_insert_eq, ?lookup_insert_ne by apply Hne; simpl).
  done.
Qed.
End Environment.

Section Requests.

Context (P : Platform).

(** ** Headers, panics and response bodies *)

Lemma setHeaders_stamps w ut u c req :
  lookup_ptr (clients w) ut = Some u →
  lookup_ptr (configs w) (config u) = Some c →
  setHeaders ut req w
  = Return {| Method := Method req; URL := URL req;
              Header := stamped_headers u c (Header req);
              ReqBody := ReqBody req |} w.
Proof.
  intros Hu Hc. unfold setHeaders, mbind, M_bind, deref. rewrite Hu, Hc.
  unfold stamped_headers, Header_Set. simpl.
  destruct (bool_decide (fePackage u ≠ "")), (bool_decide (beAdapter u ≠ "")); reflexivity.
Qed.

Lemma stamped_headers_lookup u c h name :
  stamped_headers u c h !! name
  = if bool_decide (name = "x-uploadthing-be-adapter" ∧ beAdapter u ≠ "")
    then Some (beAdapter u)
    else if bool_decide (name = "x-uploadthing-fe-package" ∧ fePackage u ≠ "")
    then Some (fePackage u)
    else if bool_decide (name = "x-uploadthing-version") then Some (Version c)
    else if bool_decide (name = "x-uploadthing-api-key") then Some (ApiKey c)
    else if bool_decide (name = "Content-Type") then Some "application/json"
    else h !! name.
Proof.
  unfold stamped_headers. cbv zeta.
  repeat case_bool_decide; rewrite ?lookup_insert; repeat case_decide;
    destruct_and?; simplify_eq; try done; tauto.
Qed.

(** X5: [setHeaders] is idempotent and touches nothing but the five header
    names it knows: method, URL and body of the request are kept, and so is
    every header whose name is none of the five in any spelling of upper and
    lower case, the names net/http holds to be the same. *)
Theorem setHeaders_idempotent w ut u c req :
  lookup_ptr (clients w) ut = Some u →
  lookup_ptr (configs w) (config u) = Some c →
  ∃ req',
    setHeaders ut req w = Return req' w
    ∧ setHeaders ut req' w = Return req' w
    ∧ Method req' = Method req ∧ URL req' = URL req ∧ ReqBody req' = ReqBody req
    ∧ ∀ name, (∀ known, known ∈ client_header_names → ¬ same_header_name name known) →
              Header req' !! name = Header req !! name.
Proof.
  intros Hu Hc. eexists. split; [by apply setHeaders_stamps|].
  rewrite (setHeaders_stamps _ _ _ _ _ Hu Hc). cbn [Method URL Header ReqBody].
  split.
  - do 2 f_equal. apply map_eq. intros name. rewrite !stamped_headers_lookup.
    by repeat case_bool_decide.
  - repeat split. intros name Hname. rewrite stamped_headers_lookup.
    assert (Hother : name ∉ client_header_names).
    { intros Hin. by apply (Hname name Hin). }
    unfold client_header_names in Hother.
    repeat case_bool_decide; destruct_and?; simplify_eq; try done;
      exfalso; apply Hother; repeat constructor.
Qed.

(** X6: a method called through a nil client pointer, or on a client whose
    [config] is nil, panics with a nil dereference before anything is sent
    or changed.  That is what happens to every method called on the pointer
    [NewUtApi] returned together with an error. *)
Theorem nil_client_panics :
  (∀ w ut call,
      (lookup_ptr (clients w) ut = None
       ∨ ∃ u, lookup_ptr (clients w) ut = Some u
              ∧ lookup_ptr (configs w) (config u) = None) →
      invoke P ut call w = Panic nil_dereference w)
  ∧ (∀ w p e w' call,
        NewUtApi P w = Return (p, Some e) w' →
        invoke P p call w' = Panic nil_dereference w').
Proof.
  split.
  - intros w ut call H.
    assert (Hpost : ∀ path body, post P ut path body w = Panic nil_dereference w).
    { intros path body. unfold post, mbind, M_bind, deref.
      destruct H as [->|(u & -> & ->)]; done. }
    destruct call; unfold invoke, DeleteFiles, ListFiles, RenameFiles, GetUsageInfo,
      GetPresignedUrl, GetAppInfo, GetPresignedUploadUrl, json_Marshal;
      cbv iota; unfold mbind, M_bind; by rewrite Hpost.
  - intros w p e w' call. rewrite NewUtApi_run.
    destruct (godotenv_Load P ".env" w) as [[e0|] w1|]; [| |intros [=]].
    + intros [= <- <- <-]. destruct call; reflexivity.
    + cbv zeta. case_bool_decide; [|intros [=]]. intros [= <- <- <-].
      destruct call; reflexivity.
Qed.

(** X7: on a live client [post] returns; it returns a response exactly
    when it returns no error, and a response it returns has a status in
    200-299, which is what lets the methods read [resp.Body] after checking
    the error alone. *)
Theorem post_response_xor_error w ut u c path data :
  live_client w ut = Some (u, c) →
  ∃ resp err w',
    post P ut path (Some (bytes_NewBuffer data)) w = Return (resp, err) w'
    ∧ (is_Some resp ↔ err = None)
    ∧ ∀ r, resp = Some r → 200 ≤ StatusCode r ≤ 299.
Proof.
  intros H. unfold bytes_NewBuffer. rewrite (post_run P _ _ _ _ _ _ H). cbv zeta.
  destruct (url_Parse P _).
  { eexists _, _, _. split; [done|]. split; [split; [intros [? [=]]|intros [=]]|intros ? [=]]. }
  destruct (RoundTrip P _ _) as [resp|e].
  2:{ eexists _, _, _. split; [done|].
      split; [split; [intros [? [=]]|intros [=]]|intros ? [=]]. }
  destruct (bad_status _) eqn:Hst.
  { eexists _, _, _. split; [done|].
    split; [split; [intros [? [=]]|intros [=]]|intros ? [=]]. }
  eexists _, _, _. split; [done|]. split; [by split; [|eexists]|].
  intros r [= <-]. by apply bad_status_false.
Qed.

(** X8: a method closes the response body when the status is in 200-299,
    whether or not the body decodes; on a status outside 200-299 [post] reads
    the body and returns without closing it, so one more body is left
    open.  Without an answer there is no body. *)
Theorem api_body_balance w ut u c call :
  live_client w ut = Some (u, c) →
  let w' := final_world (invoke P ut call w) in
  (∀ resp, answered P w u c call resp →
           (200 ≤ StatusCode resp ≤ 299 → open_bodies w' = open_bodies w)
           ∧ (StatusCode resp < 200 ∨ 299 < StatusCode resp →
              open_bodies w' = S (open_bodies w)))
  ∧ ((∀ resp, ¬ answered P w u c call resp) → open_bodies w' = open_bodies w).
Proof.
  intros H. cbv zeta. rewrite (invoke_exchange P _ _ _ _ _ H).
  unfold exchange, answered. cbv zeta.
  destruct (url_Parse P _) as [e0|].
  { split; [intros resp [[=] _]|done]. }
  destruct (RoundTrip P _ _) as [resp|e0].
  2:{ split; [intros resp [_ [=]]|done]. }
  split.
  - intros r [_ [= <-]]. split.
    + intros Hst%bad_status_false. by rewrite Hst.
    + intros Hst%bad_status_true. by rewrite Hst.
  - intros Hno. by destruct (Hno resp).
Qed.

Lemma post_surroundings ut path body : preserves surroundings (post P ut path body).
Proof. unfold post. repeat preserves_step. Qed.

(** X16: no API method changes the environment, the file system, the
    standard output or the open descriptors, on any client and in any
    world. *)
Theorem api_leaves_surroundings ut call w :
  let w' := final_world (invoke P ut call w) in
  environ w' = environ w ∧ files w' = files w
  ∧ stdout w' = stdout w ∧ open_files w' = open_files w.
Proof.
  assert (Hp : preserves surroundings (invoke P ut call)).
  { destruct call; unfold_methods; cbv iota;
      (apply preserves_bind; [|intros [??]; apply preserves_ret]).
    all: apply preserves_bind; [apply post_surroundings|intros ?].
    all: repeat preserves_step. }
  specialize (Hp w). unfold surroundings in Hp. by injection Hp.
Qed.

(** X15: a sequence of calls on a client only appends to the log of the
    requests handed to [Do], and calls [Do] at most once per call: after n
    calls the log is at most n entries longer.  The HTTP requests a call
    of [Do] issues when it follows redirects are not counted. *)
Theorem run_calls_requests ut calls w :
  ∃ new, sent (final_world (run_calls P ut calls w)) = sent w ++ new
         ∧ (length new ≤ length calls)%nat.
Proof.
  revert w. induction calls as [|call rest IH]; intros w.
  - exists []. by rewrite app_nil_r.
  - cbn [run_calls]. unfold mbind at 1, M_bind at 1.
    pose proof (invoke_one P ut call w) as Hone.
    destruct (invoke P ut call w) as [r w1|msg w1]; simpl in Hone.
    + destruct (IH w1) as (new & Hnew & Hlen).
      assert (Hfinal : sent (final_world
                (mbind (λ rs, mret (r :: rs)) (run_calls P ut rest) w1))
              = sent w1 ++ new).
      { unfold mbind, M_bind. by destruct (run_calls P ut rest w1). }
      destruct Hone as [Hone|[req Hone]].
      * exists new. rewrite Hfinal, Hone. split; [done|simpl; lia].
      * exists (req :: new). rewrite Hfinal, Hone, <- app_assoc.
        split; [done|simpl; lia].
    + destruct Hone as [Hone|[req Hone]].
      * exists []. rewrite app_nil_r. split; [done|simpl; lia].
      * exists [req]. split; [done|simpl; lia].
Qed.

End Requests.

Section UploadProperties.

Context (P : Platform).

(** ** The upload functions *)

Lemma send_form_run url b ct w :
  ∃ w',
    send_form P url (Some b) ct w
    = Return match url_Parse P url with
             | Some e => Some e
             | None =>
                 match RoundTrip P (sent w) (upload_request url ct b) with
                 | Err e => Some e
                 | Ok resp => if bad_status (StatusCode resp)
                              then Some (upload_status_error resp) else None
                 end
             end w'
    ∧ open_bodies w' = open_bodies w.
Proof.
  unfold send_form, mbind, M_bind, http_NewRequest.
  destruct (url_Parse P url); [by eexists|].
  unfold new_http_Client, http_Client_Do, mbind, M_bind, deref. simpl.
  rewrite lookup_insert_eq. unfold http_send, Header_Set, upload_request. simpl.
  rewrite insert_empty.
  destruct (RoundTrip _ _ _) as [resp|e]; [|by eexists].
  unfold defer. destruct (bad_status _); by eexists.
Qed.

Lemma send_form_bodies url body ct : preserves open_bodies (send_form P url body ct).
Proof.
  intros w. destruct body as [b|].
  - destruct (send_form_run url b ct w) as (w' & -> & Hb). done.
  - unfold send_form, mbind, M_bind, http_NewRequest. by destruct (url_Parse P url).
Qed.

(** X9: both upload functions leave as many response bodies open as they
    found: the body of an answer is closed on every path, also for a
    status outside 200-299. *)
Theorem uploads_close_response_body :
  (∀ content size presigned,
      preserves open_bodies (UploadContentToPresignedUrl P content size presigned))
  ∧ (∀ filePath presigned,
        preserves open_bodies (UploadFileToPresignedUrl P filePath presigned)).
Proof.
  split.
  - intros. rewrite UploadContent_send.
    destruct (createMultipartForm _ _ _ _ _) as [[body ct] [e|]].
    + apply preserves_ret.
    + apply send_form_bodies.
  - intros. rewrite UploadFile_send.
    apply preserves_bind; [by apply preserves_os_Open|intros [file|e]];
      [|apply preserves_ret].
    apply preserves_defer; [by apply preserves_File_Close|].
    apply preserves_bind; [apply preserves_File_Stat|intros [info|e]];
      [|apply preserves_ret].
    apply preserves_bind; [apply preserves_File_Reader|intros content].
    destruct (createMultipartForm _ _ _ _ _) as [[body ct] [e|]].
    + apply preserves_ret.
    + apply send_form_bodies.
Qed.


(** X11: [createMultipartForm] fails exactly when it is given a reader and
    a positive size and the reader delivers fewer bytes than that; its error
    is then the error of the reader, or [io.EOF] for a reader that ended
    cleanly. *)
Theorem createMultipartForm_error content size fileName fields e :
  snd (createMultipartForm P content size fileName fields) = Some e
  ↔ ∃ src, content = Some src
           ∧ 0 < size
           ∧ Z.of_nat (String.length (available src)) < size
           ∧ e = default io_EOF (failure src).
Proof.
  rewrite createMultipartForm_run. cbv zeta.
  destruct content as [src|]; [|split; [intros [=]|intros (? & [=] & _)]].
  destruct (0 <? size) eqn:Hsize.
  - apply Z.ltb_lt in Hsize. destruct (_ <=? _)%nat eqn:Hlen.
    + apply Nat.leb_le in Hlen. split; [intros [=]|].
      intros (? & [= <-] & _ & ? & _). lia.
    + apply Nat.leb_gt in Hlen. simpl. split.
      * intros [= <-]. exists src. repeat split; [done|lia].
      * by intros (? & [= <-] & _ & _ & ->).
  - apply Z.ltb_ge in Hsize. split; [intros [=]|].
    intros (? & _ & ? & _). lia.
Qed.

(** X12: given no reader (a nil interface) or a reader whose [Read] returns,
    with bytes, an error or the end of the stream, [UploadContentToPresignedUrl]
    returns.  When the form cannot be built it returns that error and leaves
    the world as it was; otherwise it returns the error of [url.Parse] on the
    presigned URL, or the error of the transport, or for an answer nil on a
    status in 200-299 and an error carrying the status and the body
    otherwise.  A reader whose [Read] panics, such as an interface holding a
    nil pointer of a type whose [Read] dereferences it, is no [Reader] and is
    not covered: on such a reader and a positive size the function panics in
    [io.CopyN]. *)
Theorem UploadContent_outcome content size presigned w :
  ∃ err w',
    UploadContentToPresignedUrl P content size presigned w = Return err w'
    ∧ match createMultipartForm P content size (FileName presigned) (Fields presigned) with
      | (Some body, contentType, None) =>
          match url_Parse P (Url presigned) with
          | Some e => err = Some e
          | None =>
              match RoundTrip P (sent w) (upload_request (Url presigned) contentType body) with
              | Err e => err = Some e
              | Ok resp =>
                  (200 ≤ StatusCode resp ≤ 299 → err = None)
                  ∧ (StatusCode resp < 200 ∨ 299 < StatusCode resp →
                     err = Some (upload_status_error resp))
              end
          end
      | (_, _, e) => err = e ∧ is_Some e ∧ w' = w
      end.
Proof.
  rewrite UploadContent_send.
  pose proof (createMultipartForm_run P content size (FileName presigned)
                (Fields presigned)) as Hrun. cbv zeta in Hrun.
  destruct (createMultipartForm _ _ _ _ _) as [[[b|] ct] [e|]].
  - by eexists _, _.
  - destruct (send_form_run (Url presigned) b ct w) as (w' & -> & _).
    eexists _, _. split; [done|].
    destruct (url_Parse P _); [done|]. destruct (RoundTrip _ _ _) as [resp|]; [|done].
    split.
    + intros Hst%bad_status_false. by rewrite Hst.
    + intros Hst%bad_status_true. by rewrite Hst.
  - by eexists _, _.
  - exfalso. destruct content as [src|];
      [destruct (0 <? size); [destruct (_ <=? _)%nat|]|]; done.
Qed.

(** X13: for a path without a file [UploadFileToPresignedUrl] returns the
    error of [os.Open] and leaves the whole world as it was; when [Stat]
    fails on the open file it returns that error, sends nothing and leaves
    no descriptor open. *)
Theorem UploadFile_missing_file filePath presigned w :
  (files w !! filePath = None →
   UploadFileToPresignedUrl P filePath presigned w
   = Return (Some (no_such_file "open" filePath)) w)
  ∧ (∀ text e, files w !! filePath = Some text →
               os_Stat_fault P filePath = Some e →
               ∃ w', UploadFileToPresignedUrl P filePath presigned w = Return (Some e) w'
                     ∧ sent w' = sent w ∧ open_files w' = open_files w).
Proof.
  split.
  - intros Hfile. rewrite UploadFile_send. unfold mbind, M_bind, os_Open.
    by rewrite Hfile.
  - intros text e Hfile Hstat. rewrite UploadFile_send.
    unfold mbind at 1, M_bind at 1, os_Open. rewrite Hfile.
    unfold defer, mbind, M_bind, File_Stat, File_Close. simpl. rewrite Hstat.
    eexists. split; [done|]. split; [done|]. simpl.
    apply delete_insert_id, not_elem_of_dom, is_fresh.
Qed.

(** X14: a request sent by either upload function is a POST to the
    presigned URL whose only header is the multipart content type: the API
    key of the client is never sent to the storage host. *)
Theorem upload_request_shape content size filePath presigned w req :
  (sent (final_world (UploadContentToPresignedUrl P content size presigned w))
   = sent w ++ [req]
   ∨ sent (final_world (UploadFileToPresignedUrl P filePath presigned w))
     = sent w ++ [req]) →
  Method req = "POST"
  ∧ URL req = Url presigned
  ∧ Header req = {[ "Content-Type" := form_content_type P ]}
  ∧ Header req !! "x-uploadthing-api-key" = None.
Proof.
  assert (Hform : ∀ content size b ct,
             createMultipartForm P content size (FileName presigned) (Fields presigned)
             = (Some b, ct, None) → ct = form_content_type P).
  { intros c n b ct. rewrite createMultipartForm_run. cbv zeta.
    destruct c as [src|]; [destruct (0 <? n); [destruct (_ <=? _)%nat|]|];
      by intros [= <- <-]. }
  intros [H|H]; revert H.
  - rewrite UploadContent_sent.
    destruct (createMultipartForm _ _ _ _ _) as [[[b|] ct] [e|]] eqn:Hc;
      try by intros ?%snoc_not_nil.
    destruct (url_Parse P _); [by intros ?%snoc_not_nil|].
    intros [= <-]%app_inv_head. rewrite (Hform _ _ _ _ Hc). by repeat split.
  - rewrite UploadFile_sent.
    destruct (files w !! filePath); [|by intros ?%snoc_not_nil].
    destruct (os_Stat_fault P filePath); [by intros ?%snoc_not_nil|].
    destruct (createMultipartForm _ _ _ _ _) as [[[b|] ct] [e|]] eqn:Hc;
      try by intros ?%snoc_not_nil.
    destruct (url_Parse P _); [by intros ?%snoc_not_nil|].
    intros [= <-]%app_inv_head. rewrite (Hform _ _ _ _ Hc). by repeat split.
Qed.

(** X17: neither upload function changes a client object, a
    configuration, the environment, the file system or the standard
    output. *)
Theorem uploads_leave_clients :
  (∀ content size presigned w,
      let w' := final_world (UploadContentToPresignedUrl P content size presigned w) in
      clients w' = clients w ∧ configs w' = configs w
      ∧ environ w' = environ w ∧ files w' = files w ∧ stdout w' = stdout w)
  ∧ (∀ filePath presigned w,
        let w' := final_world (UploadFileToPresignedUrl P filePath presigned w) in
        clients w' = clients w ∧ configs w' = configs w
        ∧ environ w' = environ w ∧ files w' = files w ∧ stdout w' = stdout w).
Proof.
  set (f := λ w, (clients w, configs w, environ w, files w, stdout w)).
  assert (Hsend : ∀ url body ct, preserves f (send_form P url body ct)).
  { intros. unfold send_form. repeat preserves_step. }
  split.
  - intros content size presigned w.
    assert (Hp : preserves f (UploadContentToPresignedUrl P content size presigned)).
    { rewrite UploadContent_send.
      destruct (createMultipartForm _ _ _ _ _) as [[body ct] [e|]];
        [apply preserves_ret|apply Hsend]. }
    specialize (Hp w). unfold f in Hp. by injection Hp.
  - intros filePath presigned w.
    assert (Hp : preserves f (UploadFileToPresignedUrl P filePath presigned)).
    { rewrite UploadFile_send.
      apply preserves_bind; [by apply preserves_os_Open|intros [file|e]];
        [|apply preserves_ret].
      apply preserves_defer; [by apply preserves_File_Close|].
      apply preserves_bind; [apply preserves_File_Stat|intros [info|e]];
        [|apply preserves_ret].
      apply preserves_bind; [apply preserves_File_Reader|intros content].
      destruct (createMultipartForm _ _ _ _ _) as [[body ct] [e|]];
        [apply preserves_ret|apply Hsend]. }
    specialize (Hp w). unfold f in Hp. by injection Hp.
Qed.

End UploadProperties.

(** * The further properties at work on the small platform *)

Lemma validateEnvironmentVariables_first_missing_witness :
  ∃ before key after,
    demo_keys = Some (before ++ key :: after)
    ∧ Forall (λ key, default "" (environ demo_env_world !! key) ≠ "") before
    ∧ default "" (environ demo_env_world !! key) = ""
    ∧ Errorf "EMPTY is not set" = Errorf (key +:+ " is not set").
Proof.
  destruct (validateEnvironmentVariables_first_missing demo_keys demo_env_world)
    as (err & Hrun & _ & Hsome).
  apply Hsome. vm_compute in Hrun. injection Hrun as <-. reflexivity.
Defined.



Lemma NewUtApi_twice_witness :
  NewUtApi demo_platform demo_world = Return (demo_ptr, None) demo_client_world
  ∧ ∃ ut2 w2 u1 u2 c,
      NewUtApi demo_platform demo_client_world = Return (ut2, None) w2
      ∧ ut2 ≠ demo_ptr
      ∧ live_client demo_client_world demo_ptr = Some (u1, c)
      ∧ live_client w2 demo_ptr = Some (u1, c)
      ∧ live_client w2 ut2 = Some (u2, c).
Proof.
  split; [vm_compute; reflexivity|].
  apply (NewUtApi_twice demo_platform demo_world demo_ptr demo_client_world).
  vm_compute; reflexivity.
Defined.

Lemma setHeaders_idempotent_witness :
  lookup_ptr (clients demo_client_world) demo_ptr = Some demo_client
  ∧ lookup_ptr (configs demo_client_world) (config demo_client) = Some demo_config
  ∧ ∃ req',
      setHeaders demo_ptr demo_request demo_client_world = Return req' demo_client_world
      ∧ setHeaders demo_ptr req' demo_client_world = Return req' demo_client_world
      ∧ Method req' = Method demo_request
      ∧ URL req' = URL demo_request
      ∧ ReqBody req' = ReqBody demo_request
      ∧ ∀ name, (∀ known, known ∈ client_header_names →
                          ¬ same_header_name name known) →
                Header req' !! name = Header demo_request !! name.
Proof.
  split; [vm_compute; reflexivity|]. split; [vm_compute; reflexivity|].
  apply (setHeaders_idempotent demo_client_world demo_ptr demo_client demo_config
           demo_request); vm_compute; reflexivity.
Defined.

Lemma nil_client_panics_witness :
  lookup_ptr (clients demo_world) nil = None
  ∧ invoke demo_platform nil demo_call demo_world = Panic nil_dereference demo_world
  ∧ NewUtApi demo_platform demo_world_without_dotenv
    = Return (nil, Some (no_such_file "open" ".env")) demo_failed_world
  ∧ invoke demo_platform nil demo_call demo_failed_world
    = Panic nil_dereference demo_failed_world.
Proof.
  pose proof (nil_client_panics demo_platform) as [Hnil Hfailed].
  split; [reflexivity|]. split.
  { apply Hnil. left. reflexivity. }
  split; [vm_compute; reflexivity|].
  apply (Hfailed demo_world_without_dotenv nil (no_such_file "open" ".env")).
  vm_compute; reflexivity.
Defined.

Lemma post_response_xor_error_witness :
  live_client demo_client_world demo_ptr = Some (demo_client, demo_config)
  ∧ ∃ resp err w',
      post demo_platform demo_ptr "/v6/listFiles" (Some (bytes_NewBuffer "{}"))
        demo_client_world
      = Return (resp, err) w'
      ∧ (is_Some resp ↔ err = None)
      ∧ ∀ r, resp = Some r → 200 ≤ StatusCode r ≤ 299.
Proof.
  split; [vm_compute; reflexivity|].
  apply (post_response_xor_error demo_platform demo_client_world demo_ptr demo_client
           demo_config).
  vm_compute; reflexivity.
Defined.

Lemma api_body_balance_witness :
  live_client demo_client_world demo_ptr = Some (demo_client, demo_config)
  ∧ answered demo_platform demo_client_world demo_client demo_config demo_call
      demo_response
  ∧ 200 ≤ StatusCode demo_response ≤ 299
  ∧ open_bodies (final_world (invoke demo_platform demo_ptr demo_call demo_client_world))
    = open_bodies demo_client_world.
Proof.
  assert (Hlive : live_client demo_client_world demo_ptr
                  = Some (demo_client, demo_config)) by (vm_compute; reflexivity).
  assert (Hanswered : answered demo_platform demo_client_world demo_client demo_config
                        demo_call demo_response) by (split; reflexivity).
  assert (Hstatus : 200 ≤ StatusCode demo_response ≤ 299) by (simpl; lia).
  split; [exact Hlive|]. split; [exact Hanswered|]. split; [exact Hstatus|].
  exact (proj1 (proj1 (api_body_balance demo_platform demo_client_world demo_ptr
                         demo_client demo_config demo_call Hlive)
                  demo_response Hanswered) Hstatus).
Defined.

Lemma createMultipartForm_error_witness :
  snd (createMultipartForm demo_platform (Some demo_content) 50 "notes.txt" ∅)
  = Some io_EOF
  ∧ ∃ src, Some demo_content = Some src
           ∧ 0 < 50
           ∧ Z.of_nat (String.length (available src)) < 50
           ∧ io_EOF = default io_EOF (failure src).
Proof.
  split; [vm_compute; reflexivity|].
  apply (proj1 (createMultipartForm_error demo_platform (Some demo_content) 50
                  "notes.txt" ∅ io_EOF)).
  vm_compute; reflexivity.
Defined.

Lemma UploadContent_outcome_witness :
  ∃ err w',
    UploadContentToPresignedUrl demo_platform (Some demo_content) 5 demo_presigned
      demo_upload_world
    = Return err w'
    ∧ err = None.
Proof.
  destruct (UploadContent_outcome demo_platform (Some demo_content) 5 demo_presigned
              demo_upload_world) as (err & w' & Hrun & Hout).
  exists err, w'. split; [exact Hrun|].
  vm_compute in Hout. apply Hout. split; discriminate.
Defined.

Lemma UploadFile_missing_file_witness :
  files demo_upload_world !! "absent.txt" = None
  ∧ UploadFileToPresignedUrl demo_platform "absent.txt" demo_presigned demo_upload_world
    = Return (Some (no_such_file "open" "absent.txt")) demo_upload_world
  ∧ files demo_upload_world !! "notes.txt" = Some "hello"
  ∧ os_Stat_fault demo_stat_fault_platform "notes.txt" = Some stat_error
  ∧ ∃ w', UploadFileToPresignedUrl demo_stat_fault_platform "notes.txt" demo_presigned
            demo_upload_world
          = Return (Some stat_error) w'
          ∧ sent w' = sent demo_upload_world
          ∧ open_files w' = open_files demo_upload_world.
Proof.
  split; [vm_compute; reflexivity|]. split.
  { apply (proj1 (UploadFile_missing_file demo_platform "absent.txt" demo_presigned
                    demo_upload_world)).
    vm_compute; reflexivity. }
  split; [vm_compute; reflexivity|]. split; [reflexivity|].
  apply (proj2 (UploadFile_missing_file demo_stat_fault_platform "notes.txt"
                  demo_presigned demo_upload_world) "hello" stat_error).
  - vm_compute; reflexivity.
  - reflexivity.
Defined.

Lemma upload_request_shape_witness :
  sent (final_world (UploadContentToPresignedUrl demo_platform (Some demo_content) 5
                       demo_presigned demo_upload_world))
  = sent demo_upload_world ++ [demo_upload_request]
  ∧ Method demo_upload_request = "POST"
  ∧ URL demo_upload_request = Url demo_presigned
  ∧ Header demo_upload_request = {[ "Content-Type" := form_content_type demo_platform ]}
  ∧ Header demo_upload_request !! "x-uploadthing-api-key" = None.
Proof.
  assert (Hsent : sent (final_world (UploadContentToPresignedUrl demo_platform
                                       (Some demo_content) 5 demo_presigned
                                       demo_upload_world))
                  = sent demo_upload_world ++ [demo_upload_request])
    by (vm_compute; reflexivity).
  split; [exact Hsent|].
  apply (upload_request_shape demo_platform (Some demo_content) 5 "notes.txt"
           demo_presigned demo_upload_world demo_upload_request).
  left. exact Hsent.
Defined.
